(** * codedeploy_facts: query dispatch and parameter building

    A shallow embedding of [cloud/amazon/codedeploy_facts.py].  The module
    reads its options from [module.params], builds the keyword arguments of
    one CodeDeploy list operation, calls the SDK client once and hands the
    response to [module.exit_json].

    Python dictionaries with string keys are [gmap string _]; a Python value
    that is either a [str] or [None] is an [option string].  The effects of
    the module (a call on the client, [fail_json], [exit_json], an uncaught
    exception) are threaded through a small monad that records every call
    made on the client. *)

From stdpp Require Import gmap strings list fin_maps.

Open Scope string_scope.

(** ** Python values *)

(** [if v:] for a value that is a [str] or [None]: [None] and the empty
    string are false, every other string is true. *)
Definition truthy (v : option string) : bool :=
  match v with
  | Some s => negb (String.eqb s "")
  | None => false
  end.

(** [d.get(k)]: the value stored under [k], and [None] when [k] is not a
    key of [d]. *)
Definition dict_get (d : gmap string (option string)) (k : string) : option string :=
  match d !! k with
  | Some v => v
  | None => None
  end.

(** [d1.update(d2)]: the entries of [d2] replace those of [d1]. *)
Definition dict_update {V} (d1 d2 : gmap string V) : gmap string V := d2 ∪ d1.

(** [needle in hay] for two strings. *)
Fixpoint contains (needle hay : string) : bool :=
  String.prefix needle hay ||
  match hay with
  | EmptyString => false
  | String _ rest => contains needle rest
  end.

(** [sep.join(l)] *)
Fixpoint join (sep : string) (l : list string) : string :=
  match l with
  | [] => ""
  | [x] => x
  | x :: rest => x ++ sep ++ join sep rest
  end.

(** [str(v)] *)
Definition str (v : option string) : string :=
  match v with
  | Some s => s
  | None => "None"
  end.

(** ** The module object *)

(** The part of an [AnsibleModule] instance that the code reads. *)
Record ansible_module := { params : gmap string (option string) }.

(** [module.params.get(k)] *)
Definition params_get (module : ansible_module) (k : string) : option string :=
  dict_get (params module) k.

(** The operations of the CodeDeploy client that the module calls
    ([client.list_applications] is the API operation ListApplications, and
    so on). *)
Inductive operation :=
| ListApplications
| ListDeploymentConfigs
| ListDeploymentGroups
| ListDeploymentInstances
| ListDeployments
| ListOnPremisesInstances.

Global Instance operation_eq_dec : EqDecision operation.
Proof. solve_decision. Defined.

(** One call on the client: the operation and its keyword arguments.  A
    keyword argument may carry [None]. *)
Definition call : Type := operation * gmap string (option string).

Section Effects.

(** [E]: the exceptions the SDK raises; [R]: the response mappings it
    returns.  Both are opaque to the module. *)
Context {E R : Type}.

(** How a run of the module ends. *)
Inductive exit :=
| ExitJson (results : R)          (* module.exit_json called with the results *)
| FailJson (msg : string)         (* module.fail_json(msg=...) *)
| ClientError (e : E)             (* an exception of the client, uncaught *)
| KeyError (key : option string). (* a failed dictionary subscript, uncaught *)

(** A computation either stops the run or yields a value, and extends the
    list of calls made on the client so far. *)
Definition M (A : Type) : Type := list call → (exit + A) * list call.

Global Instance M_ret : MRet M := λ A a tr, (inr a, tr).

Global Instance M_bind : MBind M := λ A B f m tr,
  match m tr with
  | (inl x, tr') => (inl x, tr')
  | (inr a, tr') => f a tr'
  end.

Definition stop {A} (x : exit) : M A := λ tr, (inl x, tr).

(** [module.fail_json(msg=msg)] reports the failure and exits. *)
Definition fail_json {A} (msg : string) : M A := stop (FailJson msg).

(** [module.exit_json] reports the results, unpacked as keywords, and exits. *)
Definition exit_json {A} (results : R) : M A := stop (ExitJson results).

(** The client: each operation takes keyword arguments and returns a
    response or raises. *)
Definition Client : Type := operation → gmap string (option string) → E + R.

(** A call of a client method with [params] unpacked as keywords. *)
Definition invoke (client : Client) (op : operation)
    (kwargs : gmap string (option string)) : M R := λ tr,
  (match client op kwargs with
   | inl e => inl (ClientError e)
   | inr r => inr r
   end, (tr ++ [(op, kwargs)])%list).

(** The end of a run that started with no call made, and its calls. *)
Definition run (m : M Empty_set) : exit * list call :=
  match m [] with
  | (inl x, tr) => (x, tr)
  | (inr v, _) => match v with end
  end.

(** ** The six builders (lines 105-186) *)

Definition list_applications (client : Client) (module : ansible_module) : M R :=
  let params : gmap string (option string) := ∅ in
  let params :=
    if truthy (params_get module "next_token")
    then <["nextToken" := params_get module "next_token"]> params
    else params in
  results ← invoke client ListApplications params;
  mret results.

Definition list_deployment_configs (client : Client) (module : ansible_module) : M R :=
  let params : gmap string (option string) := ∅ in
  let params :=
    if truthy (params_get module "next_token")
    then <["nextToken" := params_get module "next_token"]> params
    else params in
  results ← invoke client ListDeploymentConfigs params;
  mret results.

Definition list_deployment_groups (client : Client) (module : ansible_module) : M R :=
  let params : gmap string (option string) := ∅ in
  params ←
    (if truthy (params_get module "application_name")
     then mret (<["applicationName" := params_get module "application_name"]> params)
     else fail_json "application_name is required");
  let params :=
    if truthy (params_get module "next_token")
    then <["nextToken" := params_get module "next_token"]> params
    else params in
  results ← invoke client ListDeploymentGroups params;
  mret results.

Definition list_deployment_instances (client : Client) (module : ansible_module) : M R :=
  let params : gmap string (option string) := ∅ in
  params ←
    (if truthy (params_get module "deployment_id")
     then mret (<["deploymentId" := params_get module "deployment_id"]> params)
     else fail_json "deployment_id is required");
  let params :=
    if truthy (params_get module "instance_status_filter")
    then <["instanceStatusFilter" := params_get module "instance_status_filter"]> params
    else params in
  let params :=
    if truthy (params_get module "next_token")
    then <["nextToken" := params_get module "next_token"]> params
    else params in
  results ← invoke client ListDeploymentInstances params;
  mret results.

Definition list_deployments (client : Client) (module : ansible_module) : M R :=
  let params : gmap string (option string) := ∅ in
  params ←
    (if truthy (params_get module "deployment_group_name")
        && truthy (params_get module "application_name")
     then mret (<["deploymentGroupName" := params_get module "deployment_group_name"]>
                  (<["applicationName" := params_get module "application_name"]> params))
     else if truthy (params_get module "deployment_group_name")
             && negb (truthy (params_get module "application_name"))
     then fail_json "application_name is required when deployment_group_name used"
     else if negb (truthy (params_get module "deployment_group_name"))
             && truthy (params_get module "application_name")
     then fail_json "deployment_group_name is required when application_name used"
     else mret params);
  let params :=
    if truthy (params_get module "next_token")
    then <["nextToken" := params_get module "next_token"]> params
    else params in
  results ← invoke client ListDeployments params;
  mret results.

(** Line 180 tests the option [registration_status] and stores the value
    found under the key [registration-status]. *)
Definition list_on_premises_instances (client : Client) (module : ansible_module) : M R :=
  let params : gmap string (option string) := ∅ in
  let params :=
    if truthy (params_get module "registration_status")
    then <["registrationStatus" := params_get module "registration-status"]> params
    else params in
  let params :=
    if truthy (params_get module "next_token")
    then <["nextToken" := params_get module "next_token"]> params
    else params in
  results ← invoke client ListOnPremisesInstances params;
  mret results.

(** ** Dispatch (lines 223-233 of [main]) *)

(** The table [invocations]. *)
Definition invocations : gmap string (Client → ansible_module → M R) :=
  <["list_applications" := list_applications]>
  (<["list_deployment_configs" := list_deployment_configs]>
  (<["list_deployment_groups" := list_deployment_groups]>
  (<["list_deployment_instances" := list_deployment_instances]>
  (<["list_deployments" := list_deployments]>
  (<["list_on_premises_instances" := list_on_premises_instances]> ∅))))).

(** [invocations[key]] for a key that is a [str] or [None]. *)
Definition subscript (key : option string) : M (Client → ansible_module → M R) :=
  match key with
  | Some q =>
      match invocations !! q with
      | Some f => mret f
      | None => stop (KeyError key)
      end
  | None => stop (KeyError key)
  end.

(** The handler found under [module.params.get('query')] is called with
    [codedeploy] and [module]; its results go to [module.exit_json]. *)
Definition dispatch (codedeploy : Client) (module : ansible_module) : M Empty_set :=
  f ← subscript (params_get module "query");
  results ← f codedeploy module;
  exit_json results.

End Effects.

Arguments exit : clear implicits.
Arguments M : clear implicits.
Arguments Client : clear implicits.

(** What the caller sees after the one call on the client: the response
    goes to [exit_json], an exception is left uncaught. *)
Definition after_call {E R} (x : E + R) : exit E R :=
  match x with
  | inl e => ClientError e
  | inr r => ExitJson r
  end.

(** A keyword whose name mentions a token. *)
Definition token_shaped (k : string) : bool :=
  contains "token" k || contains "Token" k.

(** The keywords the builders can pass to the client. *)
Definition keywords : list string :=
  [ "applicationName"; "deploymentGroupName"; "deploymentId";
    "instanceStatusFilter"; "registrationStatus"; "nextToken" ].

(** The recurring step of the builders, used to state their results: when
    the option [o] is true, [params[kw] = module.params.get(o)]. *)
Definition optional (module : ansible_module) (o kw : string)
    (p : gmap string (option string)) : gmap string (option string) :=
  if truthy (params_get module o) then <[kw := params_get module o]> p else p.

(** The options a builder reads under a truth test. *)
Definition request_options : list string :=
  [ "next_token"; "application_name"; "deployment_id";
    "deployment_group_name"; "instance_status_filter"; "registration_status" ].

(** The operation that the handler stored under [q] calls on the client. *)
Definition operation_of (q : string) : option operation :=
  if decide (q = "list_applications") then Some ListApplications
  else if decide (q = "list_deployment_configs") then Some ListDeploymentConfigs
  else if decide (q = "list_deployment_groups") then Some ListDeploymentGroups
  else if decide (q = "list_deployment_instances") then Some ListDeploymentInstances
  else if decide (q = "list_deployments") then Some ListDeployments
  else if decide (q = "list_on_premises_instances") then Some ListOnPremisesInstances
  else None.

(** Every key of [module.params] that the dispatcher or a handler reads. *)
Definition read_keys : list string :=
  "query" :: "registration-status" :: request_options.

(** ** Argument handling

    [AnsibleModule] comes from [ansible.module_utils.basic] (line 236), which
    is not part of this repository.  Its constructor is modelled here as far
    as the argument spec of this module exercises it: aliases are copied to
    their option, a parameter that is neither an option nor an alias is
    refused, required options must be given, an option with choices must
    carry one of them, and every option that was not given is set to its
    default, [None] when it has none.  Python leaves the order in which a
    dictionary is walked open; the order of [map_to_list] stands for it. *)

Record option_spec := {
  choices : option (list string);
  required : bool;
  aliases : list string;
  default : option string
}.

(** [dict()] as the spec of an option. *)
Definition plain : option_spec :=
  {| choices := None; required := false; aliases := []; default := None |}.

(** The choices of [query] (lines 192-199). *)
Definition query_choices : list string :=
  [ "list_applications";
    "list_deployment_configs";
    "list_deployment_groups";
    "list_deployment_instances";
    "list_deployments";
    "list_on_premises_instances" ].

(** [dict(choices=[...], required=True)], the spec of [query]. *)
Definition query_option : option_spec :=
  {| choices := Some query_choices; required := true; aliases := []; default := None |}.

(** The options this module adds to the common ones (lines 191-205). *)
Definition module_argument_spec : gmap string option_spec :=
  <["query" := query_option]>
  (<["next_token" := plain]>
  (<["application_name" := plain]>
  (<["deployment_id" := plain]>
  (<["deployment_group_name" := plain]>
  (<["registration_status" := plain]> ∅))))).

Definition mutually_exclusive_error (kv : string * option_spec) : bool :=
  bool_decide (default kv.2 ≠ None) && required kv.2.

Definition copy_alias (k : string) (ps : gmap string (option string)) (alias : string)
    : gmap string (option string) :=
  match ps !! alias with
  | Some x => <[k := x]> ps
  | None => ps
  end.

Definition handle_aliases (spec : list (string * option_spec))
    (ps : gmap string (option string)) : gmap string (option string) :=
  foldl (λ ps kv, foldl (copy_alias kv.1) ps (aliases kv.2)) ps spec.

Definition legal_inputs (spec : list (string * option_spec)) : list string :=
  flat_map (λ kv, kv.1 :: aliases kv.2) spec.

Definition unsupported (legal : list string) (kv : string * option string) : bool :=
  bool_decide (kv.1 ∉ legal).

Definition set_default_pre (ps : gmap string (option string)) (kv : string * option_spec)
    : gmap string (option string) :=
  match default kv.2, ps !! kv.1 with
  | Some d, None => <[kv.1 := Some d]> ps
  | _, _ => ps
  end.

Definition set_default_post (ps : gmap string (option string)) (kv : string * option_spec)
    : gmap string (option string) :=
  match ps !! kv.1 with
  | None => <[kv.1 := None]> ps
  | Some _ => ps
  end.

Definition missing_required (ps : gmap string (option string)) (kv : string * option_spec) : bool :=
  required kv.2 && bool_decide (ps !! kv.1 = None).

Definition bad_choice (ps : gmap string (option string)) (kv : string * option_spec) : bool :=
  match choices kv.2, ps !! kv.1 with
  | Some cs, Some v => bool_decide (v ∉ (Some <$> cs))
  | _, _ => false
  end.

(** The option or alias [k] is declared by one of the entries. *)
Definition declares (items : list (string * option_spec)) (k : string) : Prop :=
  ∃ kv, kv ∈ items ∧ (kv.1 = k ∨ k ∈ aliases kv.2).

Section Main.

Context {E R : Type}.

Definition AnsibleModule (argument_spec : gmap string option_spec)
    (args : gmap string (option string)) : M E R ansible_module :=
  let spec := map_to_list argument_spec in
  _ ← match List.find mutually_exclusive_error spec with
      | Some kv =>
          fail_json ("internal error: required and default are mutually exclusive for " ++ kv.1)
      | None => mret ()
      end;
  let ps := handle_aliases spec args in
  _ ← match List.find (unsupported (legal_inputs spec)) (map_to_list ps) with
      | Some kv => fail_json ("unsupported parameter for module: " ++ kv.1)
      | None => mret ()
      end;
  let ps := foldl set_default_pre ps spec in
  _ ← match List.filter (missing_required ps) spec with
      | [] => mret ()
      | missing => fail_json ("missing required arguments: " ++ join "," missing.*1)
      end;
  _ ← match List.find (bad_choice ps) spec with
      | Some kv =>
          fail_json ("value of " ++ kv.1 ++ " must be one of: "
                     ++ join "," (match choices kv.2 with Some cs => cs | None => [] end)
                     ++ ", got: " ++ str (dict_get ps kv.1))
      | None => mret ()
      end;
  let ps := foldl set_default_post ps spec in
  mret {| params := ps |}.

(** What [get_aws_connection_info] and [boto3_conn] (lines 218-219, from
    [ansible.module_utils.ec2]) can do: hand back a client, raise
    [NoAuthHandlerFound], call [fail_json] themselves, or raise something
    else, which line 220 does not catch.  None of them calls a CodeDeploy
    operation. *)
Inductive connection :=
| Connected (codedeploy : Client E R)
| NoAuthHandlerFound (e : string)
| ConnectFailJson (msg : string)
| ConnectRaised (e : E).

(** [main] (lines 189-233).  The common argument spec, the two import
    flags and the connection helpers come from outside the file. *)
Definition main (ec2_argument_spec : gmap string option_spec)
    (HAS_BOTO HAS_BOTO3 : bool)
    (boto3_conn : ansible_module → connection)
    (args : gmap string (option string)) : M E R Empty_set :=
  let argument_spec := ec2_argument_spec in
  let argument_spec := dict_update argument_spec module_argument_spec in
  module ← AnsibleModule argument_spec args;
  _ ← (if negb (HAS_BOTO || HAS_BOTO3)
       then fail_json "json and boto/boto3 is required."
       else mret ());
  codedeploy ←
    match boto3_conn module with
    | Connected codedeploy => mret codedeploy
    | NoAuthHandlerFound e => fail_json ("Can't authorize connection - " ++ e)
    | ConnectFailJson msg => fail_json msg
    | ConnectRaised e => stop (ClientError e)
    end;
  dispatch codedeploy module.

End Main.

Arguments connection : clear implicits.

(** ** Concrete collaborators, for running the model *)

Module Example.

(** The common AWS options of [ansible.module_utils.ec2]
    ([validate_certs] defaults to the boolean [True], written as its
    [str]). *)
Definition ec2_argument_spec : gmap string option_spec :=
  <["ec2_url" := plain]>
  (<["aws_secret_key" := {| choices := None; required := false;
                            aliases := ["ec2_secret_key"; "secret_key"]; default := None |}]>
  (<["aws_access_key" := {| choices := None; required := false;
                            aliases := ["ec2_access_key"; "access_key"]; default := None |}]>
  (<["validate_certs" := {| choices := None; required := false;
                            aliases := []; default := Some "True" |}]>
  (<["security_token" := {| choices := None; required := false;
                            aliases := ["access_token"]; default := None |}]>
  (<["profile" := plain]>
  (<["region" := {| choices := None; required := false;
                    aliases := ["aws_region"; "ec2_region"]; default := None |}]> ∅)))))).

(** A client that answers every call with its own keyword arguments. *)
Definition echo : Client string (gmap string (option string)) :=
  λ _ kwargs, inr kwargs.

(** A client that raises on every call. *)
Definition denied : Client string (gmap string (option string)) :=
  λ _ _, inl "AccessDeniedException".

(** A module object whose [params] are exactly [ps]. *)
Definition request (ps : list (string * string)) : ansible_module :=
  {| params := list_to_map (prod_map id Some <$> ps) |}.

(** Task arguments as they are written in a playbook. *)
Definition task (ps : list (string * string)) : gmap string (option string) :=
  list_to_map (prod_map id Some <$> ps).

(** Requests used to run the dispatcher. *)
Definition deployments_of_group : ansible_module :=
  request [("query", "list_deployments"); ("application_name", "TestApplication");
           ("deployment_group_name", "Production")].

Definition applications : ansible_module := request [("query", "list_applications")].

Definition applications_next : ansible_module :=
  request [("query", "list_applications"); ("next_token", "TOKEN123")].

Definition groups_without_application : ansible_module :=
  request [("query", "list_deployment_groups")].

Definition groups_of_empty_application : ansible_module :=
  request [("query", "list_deployment_groups"); ("application_name", "")].

Definition instances_of_deployment : ansible_module :=
  request [("query", "list_deployment_instances"); ("deployment_id", "d-74Y1HLWZC")].

Definition on_premises_registered : ansible_module :=
  request [("query", "list_on_premises_instances"); ("registration_status", "Registered")].

Definition groups_of_application : ansible_module :=
  request [("query", "list_deployment_groups"); ("application_name", "TestApplication")].

(** The same request with an option that nothing reads. *)
Definition groups_of_application_in_region : ansible_module :=
  request [("query", "list_deployment_groups"); ("application_name", "TestApplication");
           ("region", "us-east-1")].

(** The task of the first example of the module's documentation. *)
Definition applications_task : gmap string (option string) :=
  task [("query", "list_applications")].

Definition groups_task_without_application : gmap string (option string) :=
  task [("query", "list_deployment_groups")].

Definition on_premises_task : gmap string (option string) :=
  task [("query", "list_on_premises_instances"); ("registration_status", "Registered")].

(** Connection helpers that find no way to authenticate. *)
Definition no_credentials : ansible_module → connection string (gmap string (option string)) :=
  λ _, NoAuthHandlerFound "No handler was ready to authenticate.".

(** [main] with both SDKs importable and a connection that succeeds. *)
Definition main_with (client : Client string (gmap string (option string)))
    (args : gmap string (option string))
    : exit string (gmap string (option string)) * list call :=
  run (main ec2_argument_spec true true (λ _, Connected client) args).

End Example.

(** * Properties of the dispatcher *)

Section Dispatch.

Context {E R : Type}.
Implicit Types (client : Client E R) (module : ansible_module).
Implicit Types (p : gmap string (option string)).

(** Membership in a list that is written out. *)
Ltac in_list := apply list_elem_of_In; simpl; tauto.
Ltac not_in_list := rewrite list_elem_of_In; simpl; intuition congruence.

Lemma truthy_true v : truthy v = true ↔ ∃ s, v = Some s ∧ s ≠ "".
Proof.
  destruct v as [s|]; simpl.
  - rewrite negb_true_iff, String.eqb_neq. split; [eauto|]. by intros (? & [= <-] & ?).
  - split; [done|]. by intros (? & ? & ?).
Qed.

Lemma lookup_optional module o kw p k :
  optional module o kw p !! k =
    if decide (kw = k)
    then (if truthy (params_get module o) then Some (params_get module o) else p !! k)
    else p !! k.
Proof.
  unfold optional. destruct (truthy _); case_decide; subst; by simplify_map_eq.
Qed.

Lemma invocations_lookup q :
  (@invocations E R) !! q =
    if decide (q = "list_applications") then Some list_applications
    else if decide (q = "list_deployment_configs") then Some list_deployment_configs
    else if decide (q = "list_deployment_groups") then Some list_deployment_groups
    else if decide (q = "list_deployment_instances") then Some list_deployment_instances
    else if decide (q = "list_deployments") then Some list_deployments
    else if decide (q = "list_on_premises_instances") then Some list_on_premises_instances
    else None.
Proof.
  unfold invocations.
  repeat (case_decide; [subst; by simplify_map_eq | rewrite lookup_insert_ne by done]).
  done.
Qed.

Lemma run_invoke client op p :
  run (results ← (results ← invoke client op p; mret results); exit_json results)
  = (after_call (client op p), [(op, p)]).
Proof.
  unfold run, mbind, M_bind, mret, M_ret, invoke, exit_json, stop, after_call. simpl.
  destruct (client op p); reflexivity.
Qed.

Lemma run_handler client module q f :
  params_get module "query" = Some q →
  invocations !! q = Some f →
  run (dispatch client module) = run (results ← f client module; exit_json results).
Proof. intros Hq Hf. unfold dispatch, subscript. rewrite Hq, Hf. reflexivity. Qed.

Lemma run_KeyError client module :
  (∀ q, params_get module "query" = Some q → (@invocations E R) !! q = None) →
  run (dispatch client module) = (KeyError (params_get module "query"), []).
Proof.
  intros Hq. unfold dispatch, subscript.
  destruct (params_get module "query") as [q|]; [rewrite (Hq q eq_refl)|]; reflexivity.
Qed.

(** ** What each query kind does *)

Lemma run_list_applications client module :
  params_get module "query" = Some "list_applications" →
  run (dispatch client module) =
    let p := optional module "next_token" "nextToken" ∅ in
    (after_call (client ListApplications p), [(ListApplications, p)]).
Proof.
  intros Hq. rewrite (run_handler _ _ _ list_applications Hq) by by rewrite invocations_lookup.
  apply run_invoke.
Qed.

Lemma run_list_deployment_configs client module :
  params_get module "query" = Some "list_deployment_configs" →
  run (dispatch client module) =
    let p := optional module "next_token" "nextToken" ∅ in
    (after_call (client ListDeploymentConfigs p), [(ListDeploymentConfigs, p)]).
Proof.
  intros Hq. rewrite (run_handler _ _ _ list_deployment_configs Hq) by by rewrite invocations_lookup.
  apply run_invoke.
Qed.

Lemma run_list_deployment_groups client module :
  params_get module "query" = Some "list_deployment_groups" →
  run (dispatch client module) =
    if truthy (params_get module "application_name")
    then
      let p := optional module "next_token" "nextToken"
                 {[ "applicationName" := params_get module "application_name" ]} in
      (after_call (client ListDeploymentGroups p), [(ListDeploymentGroups, p)])
    else (FailJson "application_name is required", []).
Proof.
  intros Hq. rewrite (run_handler _ _ _ list_deployment_groups Hq) by by rewrite invocations_lookup.
  unfold list_deployment_groups.
  destruct (truthy (params_get module "application_name")); [apply run_invoke | reflexivity].
Qed.

Lemma run_list_deployment_instances client module :
  params_get module "query" = Some "list_deployment_instances" →
  run (dispatch client module) =
    if truthy (params_get module "deployment_id")
    then
      let p := optional module "next_token" "nextToken"
                 (optional module "instance_status_filter" "instanceStatusFilter"
                    {[ "deploymentId" := params_get module "deployment_id" ]}) in
      (after_call (client ListDeploymentInstances p), [(ListDeploymentInstances, p)])
    else (FailJson "deployment_id is required", []).
Proof.
  intros Hq. rewrite (run_handler _ _ _ list_deployment_instances Hq) by by rewrite invocations_lookup.
  unfold list_deployment_instances.
  destruct (truthy (params_get module "deployment_id")); [apply run_invoke | reflexivity].
Qed.

Lemma run_list_deployments client module :
  params_get module "query" = Some "list_deployments" →
  run (dispatch client module) =
    match truthy (params_get module "application_name"),
          truthy (params_get module "deployment_group_name") with
    | true, true =>
        let p := optional module "next_token" "nextToken"
                   (<["deploymentGroupName" := params_get module "deployment_group_name"]>
                      {[ "applicationName" := params_get module "application_name" ]}) in
        (after_call (client ListDeployments p), [(ListDeployments, p)])
    | false, true =>
        (FailJson "application_name is required when deployment_group_name used", [])
    | true, false =>
        (FailJson "deployment_group_name is required when application_name used", [])
    | false, false =>
        let p := optional module "next_token" "nextToken" ∅ in
        (after_call (client ListDeployments p), [(ListDeployments, p)])
    end.
Proof.
  intros Hq. rewrite (run_handler _ _ _ list_deployments Hq) by by rewrite invocations_lookup.
  unfold list_deployments.
  destruct (truthy (params_get module "application_name")),
           (truthy (params_get module "deployment_group_name")); simpl;
    first [apply run_invoke | reflexivity].
Qed.

Lemma run_list_on_premises_instances client module :
  params_get module "query" = Some "list_on_premises_instances" →
  run (dispatch client module) =
    let p := optional module "next_token" "nextToken"
               (if truthy (params_get module "registration_status")
                then {[ "registrationStatus" := params_get module "registration-status" ]}
                else ∅) in
    (after_call (client ListOnPremisesInstances p), [(ListOnPremisesInstances, p)]).
Proof.
  intros Hq.
  rewrite (run_handler _ _ _ list_on_premises_instances Hq) by by rewrite invocations_lookup.
  unfold list_on_premises_instances.
  destruct (truthy (params_get module "registration_status")); apply run_invoke.
Qed.

(** Every run of the dispatcher ends in one of three ways: the table has
    no handler for the query, the handler refuses the request before any
    call, or exactly one call is made and decides the end of the run. *)
Lemma dispatch_outcomes client module :
  (run (dispatch client module) = (KeyError (params_get module "query"), [])
   ∧ ∀ q, params_get module "query" = Some q → q ∉ query_choices)
  ∨ (∃ msg, run (dispatch client module) = (FailJson msg, []))
  ∨ (∃ op p,
       run (dispatch client module) = (after_call (client op p), [(op, p)])
       ∧ p !! "nextToken" =
           (if truthy (params_get module "next_token")
            then Some (params_get module "next_token") else None)
       ∧ ∀ k, is_Some (p !! k) → k ∈ keywords).
Proof.
  destruct (params_get module "query") as [q|] eqn:Hq.
  2:{ left. split; [|done]. rewrite <- Hq. apply run_KeyError. by rewrite Hq. }
  pose proof (invocations_lookup q) as Hl.
  repeat case_decide; try subst q.
  7:{ left. split.
      - rewrite <- Hq. apply run_KeyError. rewrite Hq. by intros ? [= <-].
      - intros ? [= <-]. unfold query_choices.
        not_in_list. }
  all: right; clear Hl.
  - right. rewrite run_list_applications by done. do 2 eexists. split; [reflexivity|].
    split; [by rewrite !lookup_optional|].
    intros k. rewrite lookup_optional, lookup_empty.
    case_decide; [subst; intros _; in_list | by intros []].
  - right. rewrite run_list_deployment_configs by done. do 2 eexists. split; [reflexivity|].
    split; [by rewrite !lookup_optional|].
    intros k. rewrite lookup_optional, lookup_empty.
    case_decide; [subst; intros _; in_list | by intros []].
  - rewrite run_list_deployment_groups by done.
    destruct (truthy (params_get module "application_name")); [right | left; eauto].
    do 2 eexists. split; [reflexivity|].
    split; [by rewrite !lookup_optional|].
    intros k. rewrite lookup_optional, lookup_singleton.
    repeat case_decide; subst; try (by intros []); intros _; in_list.
  - rewrite run_list_deployment_instances by done.
    destruct (truthy (params_get module "deployment_id")); [right | left; eauto].
    do 2 eexists. split; [reflexivity|].
    split; [by rewrite !lookup_optional|].
    intros k. rewrite !lookup_optional, lookup_singleton.
    repeat case_decide; subst; try (by intros []); intros _; in_list.
  - rewrite run_list_deployments by done.
    destruct (truthy (params_get module "application_name")),
             (truthy (params_get module "deployment_group_name")); [right | left; eauto ..| right].
    + do 2 eexists. split; [reflexivity|].
      split; [by rewrite !lookup_optional|].
      intros k. rewrite lookup_optional, lookup_insert, lookup_singleton.
      repeat case_decide; subst; try (by intros []); intros _; in_list.
    + do 2 eexists. split; [reflexivity|].
      split; [by rewrite !lookup_optional|].
      intros k. rewrite lookup_optional, lookup_empty.
      case_decide; [subst; intros _; in_list | by intros []].
  - right. rewrite run_list_on_premises_instances by done. do 2 eexists. split; [reflexivity|].
    split; [rewrite lookup_optional; by destruct (truthy (params_get module "registration_status"))|].
    intros k. rewrite lookup_optional.
    destruct (truthy (params_get module "registration_status"));
      rewrite ?lookup_singleton, ?lookup_empty;
      repeat case_decide; subst; try (by intros []); intros _; in_list.
Qed.

(** ** The claims about the dispatcher *)

(** C1. For the query [list_deployments], with "present" read as the test
    the code makes (a value that is a non-empty string):
    - both [application_name] and [deployment_group_name] present: one
      call, whose keywords are exactly [applicationName] and
      [deploymentGroupName] with the given values, plus [nextToken] when
      and only when [next_token] is present;
    - both absent: one call, with neither keyword;
    - only [application_name] present: [fail_json] with a message that
      names [deployment_group_name], and no call;
    - only [deployment_group_name] present: [fail_json] with a message
      that names [application_name], and no call. *)
Theorem list_deployments_linked_pair client module :
  params_get module "query" = Some "list_deployments" →
  let a := params_get module "application_name" in
  let g := params_get module "deployment_group_name" in
  let t := params_get module "next_token" in
  (truthy a = true → truthy g = true →
     ∃ p, run (dispatch client module)
            = (after_call (client ListDeployments p), [(ListDeployments, p)])
          ∧ p !! "applicationName" = Some a
          ∧ p !! "deploymentGroupName" = Some g
          ∧ p !! "nextToken" = (if truthy t then Some t else None)
          ∧ ∀ k, is_Some (p !! k) →
                 k ∈ ["applicationName"; "deploymentGroupName"; "nextToken"])
  ∧ (truthy a = false → truthy g = false →
     ∃ p, run (dispatch client module)
            = (after_call (client ListDeployments p), [(ListDeployments, p)])
          ∧ p !! "applicationName" = None
          ∧ p !! "deploymentGroupName" = None
          ∧ p !! "nextToken" = (if truthy t then Some t else None)
          ∧ ∀ k, is_Some (p !! k) → k = "nextToken")
  ∧ (truthy a = true → truthy g = false →
     ∃ msg, run (dispatch client module) = (FailJson msg, [])
            ∧ msg = "deployment_group_name is required when application_name used"
            ∧ contains "deployment_group_name" msg = true)
  ∧ (truthy a = false → truthy g = true →
     ∃ msg, run (dispatch client module) = (FailJson msg, [])
            ∧ msg = "application_name is required when deployment_group_name used"
            ∧ contains "application_name" msg = true).
Proof.
  intros Hq a g t. rewrite (run_list_deployments _ _ Hq). fold a g t.
  repeat split; intros Ha Hg; rewrite Ha, Hg.
  - eexists. split; [reflexivity|].
    rewrite !lookup_optional, !lookup_insert, !lookup_singleton. fold t. simpl.
    repeat split; try done.
    intros k. rewrite lookup_optional, lookup_insert, lookup_singleton.
    repeat case_decide; subst; try (by intros []); intros _; in_list.
  - eexists. split; [reflexivity|].
    rewrite !lookup_optional, !lookup_empty. fold t. simpl.
    repeat split; try done.
    intros k. rewrite lookup_optional, lookup_empty.
    case_decide; [done | by intros []].
  - eexists. split; [reflexivity|]. split; reflexivity.
  - eexists. split; [reflexivity|]. split; reflexivity.
Qed.

(** C2. A request that sets nothing but the query: [list_applications],
    [list_deployment_configs] and [list_on_premises_instances] make their
    call with no keyword at all; [list_deployment_groups] and
    [list_deployment_instances] end in [fail_json] (for the missing
    [application_name], for the missing [deployment_id]) without a call. *)
Theorem only_the_query_set client module :
  (∀ k, k ≠ "query" → params_get module k = None) →
  (params_get module "query" = Some "list_applications" →
     run (dispatch client module)
     = (after_call (client ListApplications ∅), [(ListApplications, ∅)]))
  ∧ (params_get module "query" = Some "list_deployment_configs" →
     run (dispatch client module)
     = (after_call (client ListDeploymentConfigs ∅), [(ListDeploymentConfigs, ∅)]))
  ∧ (params_get module "query" = Some "list_on_premises_instances" →
     run (dispatch client module)
     = (after_call (client ListOnPremisesInstances ∅), [(ListOnPremisesInstances, ∅)]))
  ∧ (params_get module "query" = Some "list_deployment_groups" →
     run (dispatch client module) = (FailJson "application_name is required", []))
  ∧ (params_get module "query" = Some "list_deployment_instances" →
     run (dispatch client module) = (FailJson "deployment_id is required", [])).
Proof.
  intros Hnone.
  assert (Hopt : ∀ o kw p, o ≠ "query" → optional module o kw p = p).
  { intros o kw p Ho. unfold optional. by rewrite (Hnone o Ho). }
  repeat split; intros Hq.
  - rewrite (run_list_applications _ _ Hq). simpl. by rewrite Hopt.
  - rewrite (run_list_deployment_configs _ _ Hq). simpl. by rewrite Hopt.
  - rewrite (run_list_on_premises_instances _ _ Hq). simpl.
    rewrite Hopt by done. by rewrite (Hnone "registration_status").
  - rewrite (run_list_deployment_groups _ _ Hq). by rewrite (Hnone "application_name").
  - rewrite (run_list_deployment_instances _ _ Hq). by rewrite (Hnone "deployment_id").
Qed.

(** C3. For every query kind, when the request carries
    [next_token = "TOKEN123"] and is not refused by the handler, the one
    call that is made has the keyword [nextToken] with the value
    ["TOKEN123"], and no other keyword of it mentions a token. *)
Theorem next_token_forwarded client module q :
  q ∈ query_choices →
  params_get module "query" = Some q →
  params_get module "next_token" = Some "TOKEN123" →
  (∀ msg, (run (dispatch client module)).1 ≠ FailJson msg) →
  ∃ op p,
    (run (dispatch client module)).2 = [(op, p)]
    ∧ p !! "nextToken" = Some (Some "TOKEN123")
    ∧ ∀ k, is_Some (p !! k) → token_shaped k = true → k = "nextToken".
Proof.
  intros Hin Hq Ht Hok.
  destruct (dispatch_outcomes client module) as [[_ Hno]|[[msg Hf]|(op & p & Hr & Htok & Hkw)]].
  - destruct (Hno q Hq Hin).
  - destruct (Hok msg). by rewrite Hf.
  - exists op, p. rewrite Hr. split; [done|]. split.
    + rewrite Htok, Ht. done.
    + intros k Hk Hshape. apply Hkw in Hk.
      apply list_elem_of_In in Hk. simpl in Hk.
      destruct Hk as [<-|[<-|[<-|[<-|[<-|[<-|[]]]]]]]; done.
Qed.

(** C6. Whenever the run ends in [fail_json], no call on the client has
    been made. *)
Theorem validation_precedes_call client module msg :
  (run (dispatch client module)).1 = FailJson msg →
  (run (dispatch client module)).2 = [].
Proof.
  destruct (dispatch_outcomes client module) as [[-> _]|[[msg' ->]|(op & p & -> & _)]];
    [done | done |].
  simpl. by destruct (client op p).
Qed.

(** C7. When the call on the client raises, the run ends with that very
    exception, uncaught, and [exit_json] is not reached. *)
Theorem client_error_propagates client module op p e :
  (op, p) ∈ (run (dispatch client module)).2 →
  client op p = inl e →
  (run (dispatch client module)).1 = ClientError e
  ∧ ∀ r, (run (dispatch client module)).1 ≠ ExitJson r.
Proof.
  destruct (dispatch_outcomes client module) as [[-> _]|[[msg' ->]|(op' & p' & -> & _)]];
    simpl; intros Hin He; try by apply not_elem_of_nil in Hin.
  apply list_elem_of_singleton in Hin as [= -> ->]. by rewrite He.
Qed.

(** C9. The run ends in [exit_json r] exactly when the one call that was
    made returned [r]: the response reaches [exit_json] as the client
    returned it.  The statement holds for every type [R] of responses, so
    the dispatcher cannot look into them. *)
Theorem result_passed_through client module r :
  (run (dispatch client module)).1 = ExitJson r
  ↔ ∃ op p, (run (dispatch client module)).2 = [(op, p)] ∧ client op p = inr r.
Proof.
  destruct (dispatch_outcomes client module) as [[-> _]|[[msg' ->]|(op' & p' & -> & _)]];
    simpl.
  - split; [done | by intros (? & ? & ? & _)].
  - split; [done | by intros (? & ? & ? & _)].
  - split.
    + intros Hr. exists op', p'. split; [done|].
      destruct (client op' p'); simpl in Hr; congruence.
    + intros (op & p & [= <- <-] & ->). done.
Qed.

(** ** Requests the dispatcher cannot tell apart *)

Section Ext.

Variables (m1 m2 : ansible_module).
Hypothesis Hquery : params_get m1 "query" = params_get m2 "query".
Hypothesis Hdash :
  params_get m1 "registration-status" = params_get m2 "registration-status".
Hypothesis Htest :
  ∀ o, o ∈ request_options → truthy (params_get m1 o) = truthy (params_get m2 o).
Hypothesis Hvalue :
  ∀ o, o ∈ request_options → truthy (params_get m1 o) = true →
       params_get m1 o = params_get m2 o.

Lemma optional_ext o kw p :
  o ∈ request_options → optional m1 o kw p = optional m2 o kw p.
Proof.
  intros Ho. unfold optional. rewrite <- (Htest o Ho).
  destruct (truthy (params_get m1 o)) eqn:Ht; [|done].
  by rewrite (Hvalue o Ho Ht).
Qed.

Lemma dispatch_ext client : run (dispatch client m1) = run (dispatch client m2).
Proof.
  assert (∃ key, params_get m1 "query" = key ∧ params_get m2 "query" = key)
    as ([q|] & Hq1 & Hq2) by eauto.
  2:{ rewrite !run_KeyError; [by rewrite Hq1, Hq2 | |];
        intros q; rewrite ?Hq1, ?Hq2; done. }
  pose proof (invocations_lookup q) as Hl.
  repeat case_decide; try subst q.
  7:{ rewrite !run_KeyError; [by rewrite Hq1, Hq2 | |];
        intros q'; rewrite ?Hq1, ?Hq2; by intros [= <-]. }
  all: clear Hl.
  - rewrite !run_list_applications by done. simpl.
    by rewrite optional_ext by in_list.
  - rewrite !run_list_deployment_configs by done. simpl.
    by rewrite optional_ext by in_list.
  - rewrite !run_list_deployment_groups by done.
    rewrite <- (Htest "application_name") by in_list.
    destruct (truthy (params_get m1 "application_name")) eqn:Ha; [|done]. simpl.
    rewrite optional_ext by in_list.
    by rewrite (Hvalue "application_name") by (done || in_list).
  - rewrite !run_list_deployment_instances by done.
    rewrite <- (Htest "deployment_id") by in_list.
    destruct (truthy (params_get m1 "deployment_id")) eqn:Hd; [|done]. simpl.
    rewrite !(optional_ext "next_token") by in_list.
    rewrite !(optional_ext "instance_status_filter") by in_list.
    by rewrite (Hvalue "deployment_id") by (done || in_list).
  - rewrite !run_list_deployments by done.
    rewrite <- (Htest "application_name"), <- (Htest "deployment_group_name") by in_list.
    destruct (truthy (params_get m1 "application_name")) eqn:Ha,
             (truthy (params_get m1 "deployment_group_name")) eqn:Hg; try done; simpl.
    + rewrite optional_ext by in_list.
      rewrite (Hvalue "application_name") by (done || in_list).
      by rewrite (Hvalue "deployment_group_name") by (done || in_list).
    + by rewrite optional_ext by in_list.
  - rewrite !run_list_on_premises_instances by done. simpl.
    rewrite optional_ext by in_list.
    rewrite <- (Htest "registration_status") by in_list.
    by rewrite Hdash.
Qed.

End Ext.

Lemma params_get_delete module o k :
  params_get {| params := delete o (params module) |} k =
    if decide (o = k) then None else params_get module k.
Proof.
  unfold params_get, dict_get. simpl. case_decide; subst.
  - by rewrite lookup_delete_eq.
  - by rewrite lookup_delete_ne.
Qed.

Lemma params_get_insert module o v k :
  params_get {| params := <[o := v]> (params module) |} k =
    if decide (o = k) then v else params_get module k.
Proof.
  unfold params_get, dict_get. simpl. case_decide; subst.
  - by rewrite lookup_insert_eq.
  - by rewrite lookup_insert_ne.
Qed.

(** C10. An option of the request whose value is the empty string is
    treated as if it had not been given: the run is the same, call for
    call and end for end, as on the request without that option (the key
    removed, or stored with [None]).  In particular an empty [next_token]
    gives a call without [nextToken], and an empty [application_name]
    makes [list_deployment_groups] fail as a missing one does. *)
Theorem empty_string_is_absent client module o :
  o ∈ request_options →
  params module !! o = Some (Some "") →
  run (dispatch client module)
    = run (dispatch client {| params := delete o (params module) |})
  ∧ run (dispatch client module)
    = run (dispatch client {| params := <[o := None]> (params module) |})
  ∧ (o = "next_token" →
     ∀ op p, (op, p) ∈ (run (dispatch client module)).2 → p !! "nextToken" = None)
  ∧ (o = "application_name" →
     params_get module "query" = Some "list_deployment_groups" →
     run (dispatch client module) = (FailJson "application_name is required", [])).
Proof.
  intros Ho Hempty.
  assert (Hget : params_get module o = Some "")
    by (unfold params_get, dict_get; by rewrite Hempty).
  assert (Hq : o ≠ "query") by (intros ->; revert Ho; not_in_list).
  assert (Hd : o ≠ "registration-status") by (intros ->; revert Ho; not_in_list).
  split; [|split; [|split]].
  - apply dispatch_ext.
    + rewrite params_get_delete. by case_decide.
    + rewrite params_get_delete. by case_decide.
    + intros k _. rewrite params_get_delete. case_decide; [subst; by rewrite Hget | done].
    + intros k _. rewrite params_get_delete. case_decide; [subst; by rewrite Hget | done].
  - apply dispatch_ext.
    + rewrite params_get_insert. by case_decide.
    + rewrite params_get_insert. by case_decide.
    + intros k _. rewrite params_get_insert. case_decide; [subst; by rewrite Hget | done].
    + intros k _. rewrite params_get_insert. case_decide; [subst; by rewrite Hget | done].
  - intros -> op p.
    destruct (dispatch_outcomes client module)
      as [[-> _]|[[msg' ->]|(op' & p' & -> & Htok & _)]]; simpl;
      intros Hin; try by apply not_elem_of_nil in Hin.
    apply list_elem_of_singleton in Hin as [= -> ->]. by rewrite Htok, Hget.
  - intros -> Hkind. rewrite (run_list_deployment_groups _ _ Hkind). by rewrite Hget.
Qed.

(** Where two of the keywords come from. *)
Lemma dispatch_keyword_source client module op p :
  (op, p) ∈ (run (dispatch client module)).2 →
  (is_Some (p !! "instanceStatusFilter") →
     truthy (params_get module "instance_status_filter") = true)
  ∧ (∀ v, p !! "registrationStatus" = Some v →
     truthy (params_get module "registration_status") = true
     ∧ v = params_get module "registration-status").
Proof.
  destruct (params_get module "query") as [q|] eqn:Hq.
  2:{ rewrite run_KeyError by (by rewrite Hq). intros Hin. by apply not_elem_of_nil in Hin. }
  pose proof (invocations_lookup q) as Hl.
  repeat case_decide; try subst q.
  7:{ rewrite run_KeyError by (rewrite Hq; by intros ? [= <-]).
      intros Hin. by apply not_elem_of_nil in Hin. }
  all: clear Hl.
  - rewrite run_list_applications by done. simpl.
    intros [= -> ->]%list_elem_of_singleton.
    rewrite !lookup_optional, !lookup_empty. simpl. split; [by intros []|done].
  - rewrite run_list_deployment_configs by done. simpl.
    intros [= -> ->]%list_elem_of_singleton.
    rewrite !lookup_optional, !lookup_empty. simpl. split; [by intros []|done].
  - rewrite run_list_deployment_groups by done.
    destruct (truthy (params_get module "application_name")); simpl;
      [|intros Hin; by apply not_elem_of_nil in Hin].
    intros [= -> ->]%list_elem_of_singleton.
    rewrite !lookup_optional, !lookup_singleton. simpl. split; [by intros []|done].
  - rewrite run_list_deployment_instances by done.
    destruct (truthy (params_get module "deployment_id")); simpl;
      [|intros Hin; by apply not_elem_of_nil in Hin].
    intros [= -> ->]%list_elem_of_singleton.
    rewrite !lookup_optional, !lookup_singleton. simpl.
    destruct (truthy (params_get module "instance_status_filter")); split;
      try done; by intros [].
  - rewrite run_list_deployments by done.
    destruct (truthy (params_get module "application_name")),
             (truthy (params_get module "deployment_group_name")); simpl;
      try (intros Hin; by apply not_elem_of_nil in Hin);
      intros [= -> ->]%list_elem_of_singleton;
      rewrite !lookup_optional, ?lookup_insert, ?lookup_singleton, ?lookup_empty; simpl;
      (split; [by intros []|done]).
  - rewrite run_list_on_premises_instances by done. simpl.
    intros [= -> ->]%list_elem_of_singleton.
    rewrite !lookup_optional.
    destruct (truthy (params_get module "registration_status"));
      rewrite ?lookup_singleton, ?lookup_empty; simpl;
      (split; [by intros []|]); [|done].
    by intros v [= <-].
Qed.

End Dispatch.

(** * Properties of [main] *)

Section MainProps.

Context {E R : Type}.
Implicit Types (spec : gmap string option_spec) (items : list (string * option_spec)).
Implicit Types (args ps : gmap string (option string)).

Lemma copy_aliases_lookup k k0 l ps :
  k ≠ k0 → foldl (copy_alias k) ps l !! k0 = ps !! k0.
Proof.
  intros Hne. revert ps. induction l as [|alias l IH]; intros ps; simpl; [done|].
  rewrite IH. unfold copy_alias. destruct (ps !! alias); [|done].
  by rewrite lookup_insert_ne.
Qed.

Lemma handle_aliases_lookup items ps k0 :
  (∀ kv, kv ∈ items → kv.1 = k0 → aliases kv.2 = []) →
  handle_aliases items ps !! k0 = ps !! k0.
Proof.
  unfold handle_aliases. revert ps.
  induction items as [|kv items IH]; intros ps Hno; simpl; [done|].
  rewrite IH by (intros kv' Hin; apply Hno; by right).
  destruct (decide (kv.1 = k0)) as [Heq|Hne].
  - rewrite (Hno kv) by (done || by left). done.
  - by apply copy_aliases_lookup.
Qed.

Lemma set_default_pre_lookup items ps k0 :
  (∀ kv, kv ∈ items → kv.1 = k0 → default kv.2 = None) →
  foldl set_default_pre ps items !! k0 = ps !! k0.
Proof.
  revert ps. induction items as [|kv items IH]; intros ps Hno; simpl; [done|].
  rewrite IH by (intros kv' Hin; apply Hno; by right).
  unfold set_default_pre.
  destruct (default kv.2) as [d|] eqn:Hd; [|done].
  destruct (ps !! kv.1) eqn:Hk; [done|].
  apply lookup_insert_ne. intros Heq.
  rewrite (Hno kv) in Hd by (done || by left). done.
Qed.

(** After the last pass an option that was given keeps its value. *)
Lemma set_default_post_lookup items ps k0 v :
  ps !! k0 = Some v → foldl set_default_post ps items !! k0 = Some v.
Proof.
  revert ps. induction items as [|kv items IH]; intros ps Hk; simpl; [done|].
  apply IH. unfold set_default_post.
  destruct (ps !! kv.1) eqn:Hkv; [done|].
  rewrite lookup_insert_ne; [done|]. intros Heq. rewrite Heq in Hkv. congruence.
Qed.

Lemma AnsibleModule_fails spec args tr (x : exit E R) tr' :
  AnsibleModule spec args tr = (inl x, tr') → tr' = tr ∧ ∃ msg, x = FailJson msg.
Proof.
  unfold AnsibleModule, mbind, M_bind, mret, M_ret, fail_json, stop.
  repeat (match goal with
          | |- context [match ?t with _ => _ end] =>
              lazymatch t with
              | List.find _ _ => destruct t
              | List.filter _ _ => destruct t
              end
          end; simpl);
    intros [= <- <-]; eauto.
Qed.

Lemma AnsibleModule_accepts spec args tr module tr' :
  AnsibleModule (E:=E) (R:=R) spec args tr = (inr module, tr') →
  let items := map_to_list spec in
  let ps1 := handle_aliases items args in
  let ps2 := foldl set_default_pre ps1 items in
  tr' = tr
  ∧ List.find (unsupported (legal_inputs items)) (map_to_list ps1) = None
  ∧ List.filter (missing_required ps2) items = []
  ∧ List.find (bad_choice ps2) items = None
  ∧ params module = foldl set_default_post ps2 items.
Proof.
  unfold AnsibleModule, mbind, M_bind, mret, M_ret, fail_json, stop.
  repeat (match goal with
          | |- context [match ?t with _ => _ end] =>
              lazymatch t with
              | List.find _ _ => destruct t eqn:?
              | List.filter _ _ => destruct t eqn:?
              end
          end; simpl);
    intros [= <- <-]; simpl; eauto 10.
Qed.

Lemma bind_eq {A B} (m : M E R A) (k : A → M E R B) tr :
  (m ≫= k) tr =
    match m tr with
    | (inl x, tr') => (inl x, tr')
    | (inr a, tr') => k a tr'
    end.
Proof. reflexivity. Qed.

Lemma argument_spec_query spec :
  dict_update spec module_argument_spec !! "query" = Some query_option.
Proof. unfold dict_update. by apply lookup_union_Some_l. Qed.

Lemma find_none_elem {A} (f : A → bool) (l : list A) x :
  List.find f l = None → x ∈ l → f x = false.
Proof. intros Hf Hx. apply (List.find_none f l Hf). by apply list_elem_of_In. Qed.

Lemma filter_nil_elem {A} (f : A → bool) (l : list A) x :
  List.filter f l = [] → x ∈ l → f x = false.
Proof.
  intros Hf Hx. destruct (f x) eqn:Hfx; [|done].
  assert (In x (List.filter f l)) as Hin
    by (apply List.filter_In; split; [by apply list_elem_of_In | done]).
  rewrite Hf in Hin. destruct Hin.
Qed.

(** A module object that [AnsibleModule] hands back carries under [query]
    one of the choices, the one that was given. *)
Lemma AnsibleModule_query spec args tr module tr' :
  spec !! "query" = Some query_option →
  AnsibleModule (E:=E) (R:=R) spec args tr = (inr module, tr') →
  ∃ q, q ∈ query_choices
       ∧ args !! "query" = Some (Some q)
       ∧ params_get module "query" = Some q.
Proof.
  intros Hspec Hok.
  apply AnsibleModule_accepts in Hok as (_ & _ & Hreq & Hch & Hps).
  set (items := map_to_list spec) in *.
  set (ps2 := foldl set_default_pre (handle_aliases items args) items) in *.
  assert (Hin : ("query", query_option) ∈ items) by by apply elem_of_map_to_list.
  assert (Hsame : ∀ kv, kv ∈ items → kv.1 = "query" → kv.2 = query_option).
  { intros [k v] Hkv Hk. simpl in *. subst k.
    apply elem_of_map_to_list in Hkv. congruence. }
  assert (Hps2 : ps2 !! "query" = args !! "query").
  { unfold ps2. rewrite set_default_pre_lookup, handle_aliases_lookup; [done | |].
    - intros kv Hkv Hk. by rewrite (Hsame kv Hkv Hk).
    - intros kv Hkv Hk. by rewrite (Hsame kv Hkv Hk). }
  pose proof (filter_nil_elem _ _ _ Hreq Hin) as Hgiven.
  pose proof (find_none_elem _ _ _ Hch Hin) as Hchoice.
  unfold missing_required, bad_choice, query_option in Hgiven, Hchoice.
  cbn [fst snd choices required andb] in Hgiven, Hchoice.
  destruct (ps2 !! "query") as [v|] eqn:Hv; [|done].
  apply bool_decide_eq_false in Hchoice. apply dec_stable in Hchoice.
  apply list_elem_of_fmap in Hchoice as (q & -> & Hq).
  exists q. split; [done|]. split; [by rewrite <- Hps2|].
  unfold params_get, dict_get. rewrite Hps.
  by rewrite (set_default_post_lookup _ _ _ _ Hv).
Qed.

(** How [main] can end: in [fail_json] before any call, with an exception
    of the connection helpers before any call, or as the dispatcher ends
    on a module object that [AnsibleModule] accepted. *)
Lemma main_outcomes ec2 HAS_BOTO HAS_BOTO3 (conn : ansible_module → connection E R) args :
  (∃ msg, run (main ec2 HAS_BOTO HAS_BOTO3 conn args) = (FailJson msg, []))
  ∨ (∃ e, run (main ec2 HAS_BOTO HAS_BOTO3 conn args) = (ClientError e, []))
  ∨ (∃ module client,
       AnsibleModule (E:=E) (R:=R) (dict_update ec2 module_argument_spec) args []
         = (inr module, [])
       ∧ run (main ec2 HAS_BOTO HAS_BOTO3 conn args) = run (dispatch client module)).
Proof.
  unfold main, run. rewrite bind_eq.
  destruct (AnsibleModule _ args []) as [[x|module] tr] eqn:Hm.
  { apply AnsibleModule_fails in Hm as (-> & msg & ->). left. eauto. }
  pose proof Hm as Hm'. apply AnsibleModule_accepts in Hm' as (-> & _).
  rewrite bind_eq.
  destruct (HAS_BOTO || HAS_BOTO3); cbn [negb]; [|left; eauto].
  unfold mret at 1, M_ret at 1. rewrite bind_eq.
  destruct (conn module) as [client|e|msg|e];
    [|left; eauto|left; eauto|right; left; eauto].
  right. right. exists module, client. split; [done|]. reflexivity.
Qed.

(** ** Options that no argument spec declares *)

Lemma legal_inputs_declares items k : k ∈ legal_inputs items → declares items k.
Proof.
  unfold legal_inputs. rewrite list_elem_of_In, List.in_flat_map.
  intros (kv & Hkv & Hk). exists kv. split; [by apply list_elem_of_In|].
  destruct Hk as [Hk|Hk]; [by left | right; by apply list_elem_of_In].
Qed.

Lemma set_default_pre_undeclared items ps k0 :
  (∀ kv, kv ∈ items → kv.1 ≠ k0) →
  foldl set_default_pre ps items !! k0 = ps !! k0.
Proof.
  intros Hno. apply set_default_pre_lookup. intros kv Hkv Hk. by destruct (Hno kv Hkv).
Qed.

Lemma set_default_post_undeclared items ps k0 :
  (∀ kv, kv ∈ items → kv.1 ≠ k0) →
  foldl set_default_post ps items !! k0 = ps !! k0.
Proof.
  revert ps. induction items as [|kv items IH]; intros ps Hno; simpl; [done|].
  rewrite IH by (intros kv' Hin; apply Hno; by right).
  unfold set_default_post. destruct (ps !! kv.1); [done|].
  apply lookup_insert_ne, Hno. by left.
Qed.

Lemma handle_aliases_undeclared items ps k0 :
  (∀ kv, kv ∈ items → kv.1 ≠ k0) →
  handle_aliases items ps !! k0 = ps !! k0.
Proof.
  intros Hno. apply handle_aliases_lookup. intros kv Hkv Hk. by destruct (Hno kv Hkv).
Qed.

(** [module.params] has no key that the argument spec does not declare. *)
Lemma AnsibleModule_undeclared spec args tr module tr' k0 :
  ¬ declares (map_to_list spec) k0 →
  AnsibleModule (E:=E) (R:=R) spec args tr = (inr module, tr') →
  params module !! k0 = None.
Proof.
  intros Hno Hok.
  apply AnsibleModule_accepts in Hok as (_ & Hsup & _ & _ & Hps).
  set (items := map_to_list spec) in *.
  assert (Hkeys : ∀ kv, kv ∈ items → kv.1 ≠ k0).
  { intros kv Hkv Hk. apply Hno. exists kv. auto. }
  rewrite Hps, set_default_post_undeclared, set_default_pre_undeclared by done.
  destruct (handle_aliases items args !! k0) as [v|] eqn:Hk; [|done].
  apply elem_of_map_to_list in Hk.
  pose proof (find_none_elem _ _ _ Hsup Hk) as Hlegal.
  apply bool_decide_eq_false in Hlegal. apply dec_stable in Hlegal.
  destruct (Hno (legal_inputs_declares _ _ Hlegal)).
Qed.

(** What this module's own options declare. *)
Lemma module_argument_spec_declares ec2 k :
  declares (map_to_list (dict_update ec2 module_argument_spec)) k →
  k ∈ ["query"; "next_token"; "application_name"; "deployment_id";
       "deployment_group_name"; "registration_status"]
  ∨ declares (map_to_list ec2) k.
Proof.
  intros ([k' v] & Hkv & Hk). simpl in Hk.
  apply elem_of_map_to_list in Hkv. unfold dict_update in Hkv.
  apply lookup_union_Some_raw in Hkv as [Hown|[_ Hec2]].
  - left. unfold module_argument_spec in Hown.
    repeat (rewrite lookup_insert in Hown; case_decide;
            [ subst k'; injection Hown as <-; destruct Hk as [<-|Hk];
              [ apply list_elem_of_In; simpl; tauto | simpl in Hk; inversion Hk ]
            | ]).
    by rewrite lookup_empty in Hown.
  - right. exists (k', v). split; [by apply elem_of_map_to_list | done].
Qed.

(** ** What reaches the client through [main] *)

Section Run.

Variables (ec2_argument_spec : gmap string option_spec) (HAS_BOTO HAS_BOTO3 : bool).
Variables (boto3_conn : ansible_module → connection E R).
Variable args : gmap string (option string).

Local Abbreviation the_run :=
  (run (main ec2_argument_spec HAS_BOTO HAS_BOTO3 boto3_conn args)).


(** X17. The value of [registrationStatus] is read from the key
    [registration-status], which no option declares: whenever [main]
    passes the keyword, it carries [None]. *)
Lemma main_registration_status_is_None op p v :
  ¬ declares (map_to_list ec2_argument_spec) "registration-status" →
  (op, p) ∈ the_run.2 → p !! "registrationStatus" = Some v → v = None.
Proof.
  intros Hno.
  destruct (main_outcomes ec2_argument_spec HAS_BOTO HAS_BOTO3 boto3_conn args)
    as [[msg ->]|[[e ->]|(module & client & Hm & ->)]];
    simpl; intros Hin; try by apply not_elem_of_nil in Hin.
  apply dispatch_keyword_source in Hin as [_ Hreg].
  intros [_ ->]%Hreg.
  assert (Hnone : params module !! "registration-status" = None).
  { eapply AnsibleModule_undeclared; [|exact Hm].
    intros [Hown|Hec2]%module_argument_spec_declares; [|done].
    revert Hown. rewrite list_elem_of_In. simpl. intuition congruence. }
  unfold params_get, dict_get. by rewrite Hnone.
Qed.

End Run.

Lemma invocations_unknown q : q ∉ query_choices → (@invocations E R) !! q = None.
Proof.
  intros Hq. rewrite invocations_lookup.
  repeat (case_decide; [subst q; destruct Hq; apply list_elem_of_In; simpl; tauto|]).
  done.
Qed.

(** C8. A query outside the six choices never reaches a handler or the
    client: [AnsibleModule] refuses it, so [main] ends in [fail_json]
    with no call made; the table itself has no entry for it, so the
    subscript of line 231 would raise [KeyError] before any handler
    runs.  For a query among the choices the table has a handler, and
    [main] never ends in [KeyError]. *)
Theorem query_outside_choices_rejected :
  (∀ ec2_argument_spec HAS_BOTO HAS_BOTO3 (boto3_conn : ansible_module → connection E R) args,
     (∀ q, args !! "query" = Some (Some q) → q ∉ query_choices) →
     ∃ msg,
       AnsibleModule (E:=E) (R:=R) (dict_update ec2_argument_spec module_argument_spec) args []
         = (inl (FailJson msg), [])
       ∧ run (main ec2_argument_spec HAS_BOTO HAS_BOTO3 boto3_conn args) = (FailJson msg, []))
  ∧ (∀ (client : Client E R) module,
       (∀ q, params_get module "query" = Some q → q ∉ query_choices) →
       run (dispatch client module) = (KeyError (params_get module "query"), []))
  ∧ (∀ q, q ∈ query_choices → is_Some ((@invocations E R) !! q))
  ∧ (∀ ec2_argument_spec HAS_BOTO HAS_BOTO3 (boto3_conn : ansible_module → connection E R)
       args key,
       (run (main ec2_argument_spec HAS_BOTO HAS_BOTO3 boto3_conn args)).1 ≠ KeyError key).
Proof.
  split; [|split; [|split]].
  - intros ec2 HB HB3 conn args Hout.
    destruct (AnsibleModule (E:=E) (R:=R) (dict_update ec2 module_argument_spec) args [])
      as [[x|module] tr] eqn:Hm.
    + pose proof Hm as Hm'. apply AnsibleModule_fails in Hm' as (-> & msg & ->).
      exists msg. split; [done|].
      unfold main, run. by rewrite bind_eq, Hm.
    + apply AnsibleModule_query in Hm as (q & Hq & Hargs & _);
        [|apply argument_spec_query].
      destruct (Hout q Hargs Hq).
  - intros client module Hout. apply run_KeyError.
    intros q Hq. apply invocations_unknown. by apply Hout.
  - intros q Hq. rewrite invocations_lookup.
    apply list_elem_of_In in Hq. simpl in Hq.
    destruct Hq as [<-|[<-|[<-|[<-|[<-|[<-|[]]]]]]]; by eexists.
  - intros ec2 HB HB3 conn args key.
    destruct (main_outcomes ec2 HB HB3 conn args)
      as [[msg ->]|[[e ->]|(module & client & Hm & ->)]]; [done|done|].
    apply AnsibleModule_query in Hm as (q & Hq & _ & Hget); [|apply argument_spec_query].
    destruct (dispatch_outcomes client module)
      as [[_ Hno]|[[msg' ->]|(op' & p' & -> & _)]]; [|done|].
    + destruct (Hno q Hget Hq).
    + simpl. by destruct (client op' p').
Qed.

End MainProps.

(** * The two options that do not reach the client *)

(** C4. [registration_status: Registered] passes the argument check, and the
    call carries [registrationStatus] with the value [None], not the value
    that was given: line 180 reads the key [registration-status]. *)
Theorem registration_status_not_forwarded :
  Example.main_with Example.echo
    (Example.task [("query", "list_on_premises_instances");
                   ("registration_status", "Registered")])
  = (ExitJson {[ "registrationStatus" := None ]},
     [(ListOnPremisesInstances, {[ "registrationStatus" := None ]})]).
Proof. vm_compute. reflexivity. Qed.

(** C5. [instance_status_filter] is read by [list_deployment_instances]
    (line 148) but is not an option of the argument spec (lines 191-205): the
    task is refused as carrying an unsupported parameter, and no call is
    made. *)
Theorem instance_status_filter_not_accepted :
  Example.main_with Example.echo
    (Example.task [("query", "list_deployment_instances");
                   ("deployment_id", "d-ABC");
                   ("instance_status_filter", "Succeeded")])
  = (FailJson "unsupported parameter for module: instance_status_filter", []).
Proof. vm_compute. reflexivity. Qed.

(** The handler itself forwards the filter when the module object carries
    it, which [main] never lets happen. *)
Lemma list_deployment_instances_forwards_filter :
  run (dispatch Example.echo
         (Example.request [("query", "list_deployment_instances");
                           ("deployment_id", "d-ABC");
                           ("instance_status_filter", "Succeeded")]))
  = (ExitJson {[ "deploymentId" := Some "d-ABC"; "instanceStatusFilter" := Some "Succeeded" ]},
     [(ListDeploymentInstances,
       {[ "deploymentId" := Some "d-ABC"; "instanceStatusFilter" := Some "Succeeded" ]})]).
Proof. vm_compute. reflexivity. Qed.

(** * The theorems at work on concrete requests *)

Lemma list_deployments_linked_pair_witness :
  ∃ p, run (dispatch Example.echo Example.deployments_of_group)
         = (ExitJson p, [(ListDeployments, p)])
       ∧ p !! "applicationName" = Some (Some "TestApplication")
       ∧ p !! "deploymentGroupName" = Some (Some "Production")
       ∧ p !! "nextToken" = None
       ∧ ∀ k, is_Some (p !! k) →
              k ∈ ["applicationName"; "deploymentGroupName"; "nextToken"].
Proof.
  destruct (list_deployments_linked_pair Example.echo Example.deployments_of_group eq_refl)
    as [Hboth _].
  exact (Hboth eq_refl eq_refl).
Defined.

Lemma only_the_query_set_witness :
  run (dispatch Example.echo Example.applications)
  = (ExitJson ∅, [(ListApplications, ∅)]).
Proof.
  assert (Hnone : ∀ k, k ≠ "query" → params_get Example.applications k = None).
  { intros k Hk. unfold params_get, dict_get, Example.applications, Example.request. simpl.
    rewrite lookup_insert_ne by done. by rewrite lookup_empty. }
  exact (proj1 (only_the_query_set Example.echo Example.applications Hnone) eq_refl).
Defined.

Lemma next_token_forwarded_witness :
  ∃ op p,
    (run (dispatch Example.echo Example.applications_next)).2 = [(op, p)]
    ∧ p !! "nextToken" = Some (Some "TOKEN123")
    ∧ ∀ k, is_Some (p !! k) → token_shaped k = true → k = "nextToken".
Proof.
  apply (next_token_forwarded Example.echo Example.applications_next "list_applications").
  - apply list_elem_of_In. simpl. tauto.
  - reflexivity.
  - reflexivity.
  - intros msg H. vm_compute in H. discriminate H.
Defined.

Lemma validation_precedes_call_witness :
  (run (dispatch Example.echo Example.groups_without_application)).1
    = FailJson "application_name is required"
  ∧ (run (dispatch Example.echo Example.groups_without_application)).2 = [].
Proof.
  split; [reflexivity|].
  apply (validation_precedes_call Example.echo Example.groups_without_application
           "application_name is required").
  reflexivity.
Defined.

Lemma client_error_propagates_witness :
  (run (dispatch Example.denied Example.applications)).1 = ClientError "AccessDeniedException"
  ∧ ∀ r, (run (dispatch Example.denied Example.applications)).1 ≠ ExitJson r.
Proof.
  apply (client_error_propagates Example.denied Example.applications ListApplications ∅).
  - apply list_elem_of_In. left. reflexivity.
  - reflexivity.
Defined.

Lemma result_passed_through_witness :
  (run (dispatch Example.echo Example.applications_next)).1
  = ExitJson {[ "nextToken" := Some "TOKEN123" ]}.
Proof.
  apply (result_passed_through Example.echo Example.applications_next).
  exists ListApplications, {[ "nextToken" := Some "TOKEN123" ]}. split; reflexivity.
Defined.

Lemma empty_string_is_absent_witness :
  run (dispatch Example.echo Example.groups_of_empty_application)
  = run (dispatch Example.echo Example.groups_without_application)
  ∧ run (dispatch Example.echo Example.groups_of_empty_application)
    = (FailJson "application_name is required", []).
Proof.
  destruct (empty_string_is_absent Example.echo Example.groups_of_empty_application
              "application_name") as (Hdel & _ & _ & Hfail).
  - apply list_elem_of_In. simpl. tauto.
  - reflexivity.
  - split; [|exact (Hfail eq_refl eq_refl)].
    rewrite Hdel. reflexivity.
Defined.

Lemma query_outside_choices_rejected_witness :
  ∃ msg, Example.main_with Example.echo (Example.task [("query", "list_foo")])
         = (FailJson msg, []).
Proof.
  destruct (@query_outside_choices_rejected string (gmap string (option string)))
    as [Hmain _].
  destruct (Hmain Example.ec2_argument_spec true true (λ _, Connected Example.echo)
              (Example.task [("query", "list_foo")])) as (msg & _ & Hrun).
  - intros q H. vm_compute in H. injection H as <-.
    rewrite list_elem_of_In. simpl. intuition discriminate.
  - exists msg. exact Hrun.
Defined.


(** * Further properties of the handlers *)

Section Handlers.

Context {E R : Type}.
Implicit Types (client : Client E R) (module : ansible_module).
Implicit Types (p : gmap string (option string)).

Ltac one_of := apply list_elem_of_In; simpl; tauto.
Ltac no_call := intros Hin; by apply not_elem_of_nil in Hin.

(** X1. [list_deployment_groups] with an application name: one call of
    ListDeploymentGroups, whose keywords are [applicationName] with the
    given name and, when [next_token] is given, [nextToken]; nothing else. *)
Theorem list_deployment_groups_call client module :
  params_get module "query" = Some "list_deployment_groups" →
  truthy (params_get module "application_name") = true →
  ∃ p, run (dispatch client module)
         = (after_call (client ListDeploymentGroups p), [(ListDeploymentGroups, p)])
       ∧ p !! "applicationName" = Some (params_get module "application_name")
       ∧ p !! "nextToken" =
           (if truthy (params_get module "next_token")
            then Some (params_get module "next_token") else None)
       ∧ ∀ k, is_Some (p !! k) → k ∈ ["applicationName"; "nextToken"].
Proof.
  intros Hq Ha. rewrite (run_list_deployment_groups _ _ Hq), Ha.
  eexists. split; [reflexivity|].
  rewrite !lookup_optional, !lookup_singleton. simpl.
  repeat split; try done.
  intros k. rewrite lookup_optional, lookup_singleton.
  repeat case_decide; subst; try (by intros []); intros _; one_of.
Qed.

(** X2. [list_deployment_instances] with a deployment id: one call of
    ListDeploymentInstances, whose keywords are [deploymentId] with the
    given id, [instanceStatusFilter] when the module object carries a
    filter, and [nextToken] when it carries a token; nothing else. *)
Theorem list_deployment_instances_call client module :
  params_get module "query" = Some "list_deployment_instances" →
  truthy (params_get module "deployment_id") = true →
  ∃ p, run (dispatch client module)
         = (after_call (client ListDeploymentInstances p), [(ListDeploymentInstances, p)])
       ∧ p !! "deploymentId" = Some (params_get module "deployment_id")
       ∧ p !! "instanceStatusFilter" =
           (if truthy (params_get module "instance_status_filter")
            then Some (params_get module "instance_status_filter") else None)
       ∧ p !! "nextToken" =
           (if truthy (params_get module "next_token")
            then Some (params_get module "next_token") else None)
       ∧ ∀ k, is_Some (p !! k) → k ∈ ["deploymentId"; "instanceStatusFilter"; "nextToken"].
Proof.
  intros Hq Hd. rewrite (run_list_deployment_instances _ _ Hq), Hd.
  eexists. split; [reflexivity|].
  rewrite !lookup_optional, !lookup_singleton. simpl.
  repeat split; try done.
  intros k. rewrite !lookup_optional, lookup_singleton.
  repeat case_decide; subst; try (by intros []); intros _; one_of.
Qed.

(** X3. [list_on_premises_instances] refuses no request: it always makes
    one call of ListOnPremisesInstances.  The keyword [registrationStatus]
    is passed exactly when [registration_status] is given, and its value is
    whatever the module object holds under [registration-status]. *)
Theorem list_on_premises_instances_call client module :
  params_get module "query" = Some "list_on_premises_instances" →
  ∃ p, run (dispatch client module)
         = (after_call (client ListOnPremisesInstances p), [(ListOnPremisesInstances, p)])
       ∧ p !! "registrationStatus" =
           (if truthy (params_get module "registration_status")
            then Some (params_get module "registration-status") else None)
       ∧ p !! "nextToken" =
           (if truthy (params_get module "next_token")
            then Some (params_get module "next_token") else None)
       ∧ ∀ k, is_Some (p !! k) → k ∈ ["registrationStatus"; "nextToken"].
Proof.
  intros Hq. rewrite (run_list_on_premises_instances _ _ Hq).
  eexists. split; [reflexivity|]. simpl.
  rewrite !lookup_optional.
  destruct (truthy (params_get module "registration_status"));
    rewrite ?lookup_singleton, ?lookup_empty; simpl; (repeat split; try done);
    intros k; rewrite lookup_optional, ?lookup_singleton, ?lookup_empty;
    repeat case_decide; subst; try (by intros []); intros _; one_of.
Qed.

(** X4. [list_applications] and [list_deployment_configs] refuse no request
    and read nothing but [next_token]: they always make one call, of their
    own operation, with [nextToken] when a token is given and no other
    keyword. *)
Theorem unconditional_listing_call client module q :
  q ∈ ["list_applications"; "list_deployment_configs"] →
  params_get module "query" = Some q →
  ∃ op p, operation_of q = Some op
       ∧ run (dispatch client module) = (after_call (client op p), [(op, p)])
       ∧ p !! "nextToken" =
           (if truthy (params_get module "next_token")
            then Some (params_get module "next_token") else None)
       ∧ ∀ k, is_Some (p !! k) → k = "nextToken".
Proof.
  intros Hin Hq. apply list_elem_of_In in Hin. simpl in Hin.
  destruct Hin as [<-|[<-|[]]].
  - exists ListApplications. eexists. split; [reflexivity|].
    rewrite (run_list_applications _ _ Hq). split; [reflexivity|]. simpl.
    split; [by rewrite lookup_optional|].
    intros k. rewrite lookup_optional, lookup_empty. case_decide; [done | by intros []].
  - exists ListDeploymentConfigs. eexists. split; [reflexivity|].
    rewrite (run_list_deployment_configs _ _ Hq). split; [reflexivity|]. simpl.
    split; [by rewrite lookup_optional|].
    intros k. rewrite lookup_optional, lookup_empty. case_decide; [done | by intros []].
Qed.

(** The whole dispatcher at a glance, for the case analyses below. *)
Lemma dispatch_run client module :
  run (dispatch client module) =
    match params_get module "query" with
    | None => (KeyError None, [])
    | Some q =>
        let token := optional module "next_token" "nextToken" in
        if decide (q = "list_applications") then
          (after_call (client ListApplications (token ∅)), [(ListApplications, token ∅)])
        else if decide (q = "list_deployment_configs") then
          (after_call (client ListDeploymentConfigs (token ∅)),
           [(ListDeploymentConfigs, token ∅)])
        else if decide (q = "list_deployment_groups") then
          if truthy (params_get module "application_name")
          then
            let p := token {[ "applicationName" := params_get module "application_name" ]} in
            (after_call (client ListDeploymentGroups p), [(ListDeploymentGroups, p)])
          else (FailJson "application_name is required", [])
        else if decide (q = "list_deployment_instances") then
          if truthy (params_get module "deployment_id")
          then
            let p := token (optional module "instance_status_filter" "instanceStatusFilter"
                              {[ "deploymentId" := params_get module "deployment_id" ]}) in
            (after_call (client ListDeploymentInstances p), [(ListDeploymentInstances, p)])
          else (FailJson "deployment_id is required", [])
        else if decide (q = "list_deployments") then
          match truthy (params_get module "application_name"),
                truthy (params_get module "deployment_group_name") with
          | true, true =>
              let p := token
                         (<["deploymentGroupName" := params_get module "deployment_group_name"]>
                            {[ "applicationName" := params_get module "application_name" ]}) in
              (after_call (client ListDeployments p), [(ListDeployments, p)])
          | false, true =>
              (FailJson "application_name is required when deployment_group_name used", [])
          | true, false =>
              (FailJson "deployment_group_name is required when application_name used", [])
          | false, false =>
              (after_call (client ListDeployments (token ∅)), [(ListDeployments, token ∅)])
          end
        else if decide (q = "list_on_premises_instances") then
          let p := token
                     (if truthy (params_get module "registration_status")
                      then {[ "registrationStatus" := params_get module "registration-status" ]}
                      else ∅) in
          (after_call (client ListOnPremisesInstances p), [(ListOnPremisesInstances, p)])
        else (KeyError (Some q), [])
    end.
Proof.
  destruct (params_get module "query") as [q|] eqn:Hq.
  2:{ rewrite <- Hq. apply run_KeyError. by rewrite Hq. }
  cbv zeta. repeat case_decide; try subst q.
  - by apply run_list_applications.
  - by apply run_list_deployment_configs.
  - by apply run_list_deployment_groups.
  - by apply run_list_deployment_instances.
  - by apply run_list_deployments.
  - by apply run_list_on_premises_instances.
  - rewrite <- Hq. apply run_KeyError. rewrite Hq. intros ? [= <-].
    rewrite invocations_lookup. by repeat case_decide.
Qed.

(** Splits the goal by the outcome of every test the dispatcher makes. *)
Ltac by_outcome module :=
  rewrite ?dispatch_run; cbv zeta;
  destruct (params_get module "query") as [?q|] eqn:?Hq;
  repeat case_decide; try subst;
  repeat match goal with
         | |- context [if truthy ?v then _ else _] => destruct (truthy v) eqn:?
         | |- context [match truthy ?v with _ => _ end] => destruct (truthy v) eqn:?
         end;
  cbn [fst snd].

Lemma call_is_operation_of_query client module q op p :
  params_get module "query" = Some q →
  (op, p) ∈ (run (dispatch client module)).2 →
  operation_of q = Some op.
Proof.
  intros Hquery. rewrite dispatch_run, Hquery. cbv zeta. unfold operation_of.
  repeat case_decide; try subst;
    repeat match goal with
           | |- context [match truthy ?v with _ => _ end] => destruct (truthy v) eqn:?
           end;
    cbn [fst snd]; try no_call;
    by intros [= -> _]%list_elem_of_singleton.
Qed.

(** X5. A call is always the operation of the query that was asked: the
    table of line 223 pairs each name with the handler that calls the
    client method of the same name. *)
Theorem operation_matches_query client module q op p :
  params_get module "query" = Some q →
  (op, p) ∈ (run (dispatch client module)).2 →
  operation_of q = Some op.
Proof.
  apply call_is_operation_of_query.
Qed.

(** X6. No handler loops over pages or retries: a run of the dispatcher
    makes at most one call on the client. *)
Theorem at_most_one_call client module :
  (List.length (run (dispatch client module)).2 ≤ 1)%nat.
Proof. by_outcome module; simpl; lia. Qed.

(** X7. Except for [registrationStatus], a keyword is only ever passed with
    a value that is a non-empty string: never [None], never the empty
    string. *)
Theorem keyword_values_nonempty client module op p k v :
  (op, p) ∈ (run (dispatch client module)).2 →
  p !! k = Some v →
  k ≠ "registrationStatus" →
  truthy v = true.
Proof.
  by_outcome module; try no_call;
    intros [= -> ->]%list_elem_of_singleton;
    unfold optional;
    repeat match goal with
           | |- context [if truthy ?x then _ else _] => destruct (truthy x) eqn:?
           end;
    rewrite ?lookup_insert, ?lookup_singleton, ?lookup_empty;
    repeat case_decide; subst; try done;
    intros [= <-] _; assumption.
Qed.

(** X8. When a handler refuses a request, and with which message: a run
    of the dispatcher ends in [fail_json] exactly in these four cases. *)
Theorem validation_failure_characterised client module msg :
  (run (dispatch client module)).1 = FailJson msg
  ↔ (params_get module "query" = Some "list_deployment_groups"
     ∧ truthy (params_get module "application_name") = false
     ∧ msg = "application_name is required")
    ∨ (params_get module "query" = Some "list_deployment_instances"
       ∧ truthy (params_get module "deployment_id") = false
       ∧ msg = "deployment_id is required")
    ∨ (params_get module "query" = Some "list_deployments"
       ∧ truthy (params_get module "deployment_group_name") = true
       ∧ truthy (params_get module "application_name") = false
       ∧ msg = "application_name is required when deployment_group_name used")
    ∨ (params_get module "query" = Some "list_deployments"
       ∧ truthy (params_get module "deployment_group_name") = false
       ∧ truthy (params_get module "application_name") = true
       ∧ msg = "deployment_group_name is required when application_name used").
Proof.
  rewrite dispatch_run. cbv zeta.
  destruct (params_get module "query") as [q|] eqn:Hq; [|naive_solver].
  repeat case_decide; try subst q;
    repeat match goal with
           | |- context [match truthy ?v with _ => _ end] => destruct (truthy v) eqn:?
           end;
    cbn [fst snd];
    try match goal with
        | |- context [after_call ?x] => destruct x; simpl
        end;
    naive_solver.
Qed.

(** X10. The dispatcher reads [query], the six options of
    [request_options] and the key [registration-status], and nothing else:
    two module objects that agree on these run alike, whatever else they
    hold (region, credentials, ...). *)
Theorem unread_options_ignored client (m1 m2 : ansible_module) :
  (∀ k, k ∈ read_keys → params_get m1 k = params_get m2 k) →
  run (dispatch client m1) = run (dispatch client m2).
Proof.
  intros Hsame.
  assert (Hopt : ∀ o, o ∈ request_options → params_get m1 o = params_get m2 o).
  { intros o Ho. apply Hsame. unfold read_keys. by do 2 right. }
  apply dispatch_ext.
  - apply Hsame. one_of.
  - apply Hsame. one_of.
  - intros o Ho. by rewrite (Hopt o Ho).
  - intros o Ho _. by apply Hopt.
Qed.

End Handlers.

(** X9. Which call is made, and with which keywords, is settled by the
    request alone: it does not depend on the client or on what it answers. *)
Theorem calls_independent_of_client {E R E' R' : Type}
    (client : Client E R) (client' : Client E' R') (module : ansible_module) :
  (run (dispatch client module)).2 = (run (dispatch client' module)).2.
Proof.
  rewrite !dispatch_run. cbv zeta.
  destruct (params_get module "query") as [q|]; [|done].
  repeat case_decide; try done;
    repeat match goal with
           | |- context [match truthy ?v with _ => _ end] => destruct (truthy v)
           end;
    reflexivity.
Qed.

(** * Further properties of [main] *)

Section MainRuns.

Context {E R : Type}.
Variables (ec2_argument_spec : gmap string option_spec) (HAS_BOTO HAS_BOTO3 : bool).
Variables (boto3_conn : ansible_module → connection E R).
Variable args : gmap string (option string).

(** The steps of [main], one after the other. *)
Lemma main_run :
  (run (main ec2_argument_spec HAS_BOTO HAS_BOTO3 boto3_conn args)) =
    match
      (AnsibleModule (E:=E) (R:=R)
         (dict_update ec2_argument_spec module_argument_spec) args [])
      with
    | (inl x, tr) => (x, tr)
    | (inr module, tr) =>
        if negb (HAS_BOTO || HAS_BOTO3)
        then (FailJson "json and boto/boto3 is required.", tr)
        else
          match boto3_conn module with
          | Connected codedeploy =>
              match dispatch codedeploy module tr with
              | (inl x, tr') => (x, tr')
              | (inr v, _) => match v with end
              end
          | NoAuthHandlerFound e => (FailJson ("Can't authorize connection - " ++ e), tr)
          | ConnectFailJson msg => (FailJson msg, tr)
          | ConnectRaised e => (ClientError e, tr)
          end
    end.
Proof.
  unfold main, run. rewrite bind_eq.
  destruct
    (AnsibleModule (E:=E) (R:=R)
       (dict_update ec2_argument_spec module_argument_spec) args [])
    as [[x|module] tr]; [done|].
  rewrite bind_eq. destruct (negb (HAS_BOTO || HAS_BOTO3)); [done|].
  unfold mret at 1, M_ret at 1. rewrite bind_eq.
  by destruct (boto3_conn module).
Qed.

Lemma main_run_accepted module :

    (AnsibleModule (E:=E) (R:=R)
       (dict_update ec2_argument_spec module_argument_spec) args [])
    = (inr module, []) →
  (run (main ec2_argument_spec HAS_BOTO HAS_BOTO3 boto3_conn args)) =
    if negb (HAS_BOTO || HAS_BOTO3)
    then (FailJson "json and boto/boto3 is required.", [])
    else
      match boto3_conn module with
      | Connected codedeploy => run (dispatch codedeploy module)
      | NoAuthHandlerFound e => (FailJson ("Can't authorize connection - " ++ e), [])
      | ConnectFailJson msg => (FailJson msg, [])
      | ConnectRaised e => (ClientError e, [])
      end.
Proof. intros Hm. rewrite main_run, Hm. reflexivity. Qed.

Lemma main_run_refused x tr :
  (AnsibleModule (E:=E) (R:=R)
     (dict_update ec2_argument_spec module_argument_spec) args [])
  = (inl x, tr) → ∃ msg, (run (main ec2_argument_spec HAS_BOTO HAS_BOTO3 boto3_conn args)) = (FailJson msg, []).
Proof.
  intros Hm. rewrite main_run, Hm.
  apply AnsibleModule_fails in Hm as (-> & msg & ->). eauto.
Qed.

Lemma checked_cases :
  (∃ msg,
    (AnsibleModule (E:=E) (R:=R)
       (dict_update ec2_argument_spec module_argument_spec) args [])
    = (inl (FailJson msg), [])) ∨ (∃ module, (AnsibleModule (E:=E) (R:=R) (dict_update ec2_argument_spec module_argument_spec) args []) = (inr module, [])).
Proof.
  destruct
    (AnsibleModule (E:=E) (R:=R)
       (dict_update ec2_argument_spec module_argument_spec) args [])
    as [[x|module] tr] eqn:Hm.
  - apply AnsibleModule_fails in Hm as (-> & msg & ->). eauto.
  - apply AnsibleModule_accepts in Hm as (-> & _). eauto.
Qed.

(** X11. [main] calls the client only after everything before line 231
    went well: the task was accepted, one of the SDKs could be imported and
    the connection helpers handed back a client.  The call is then the one
    the dispatcher makes on the accepted module object, and the only one. *)
Theorem main_call_requires_connection op p :
  (op, p) ∈ (run (main ec2_argument_spec HAS_BOTO HAS_BOTO3 boto3_conn args)).2 →
  HAS_BOTO || HAS_BOTO3 = true
  ∧ ∃ module client,

        (AnsibleModule (E:=E) (R:=R)
           (dict_update ec2_argument_spec module_argument_spec) args [])
        = (inr module, [])
      ∧ boto3_conn module = Connected client
      ∧
        (run (main ec2_argument_spec HAS_BOTO HAS_BOTO3 boto3_conn args))
        = run (dispatch client module)
      ∧ (run (main ec2_argument_spec HAS_BOTO HAS_BOTO3 boto3_conn args)).2 = [(op, p)].
Proof.
  destruct checked_cases as [[msg Hm]|[module Hm]].
  { destruct (main_run_refused _ _ Hm) as [msg' ->]. simpl.
    intros Hin. by apply not_elem_of_nil in Hin. }
  rewrite (main_run_accepted _ Hm).
  destruct (HAS_BOTO || HAS_BOTO3); simpl;
    [|intros Hin; by apply not_elem_of_nil in Hin].
  destruct (boto3_conn module) as [client|e|msg|e] eqn:Hc; simpl;
    try (intros Hin; by apply not_elem_of_nil in Hin).
  intros Hin. split; [done|]. exists module, client. repeat split; try done.
  destruct (dispatch_outcomes client module)
    as [[Hr _]|[[msg' Hr]|(op' & p' & Hr & _)]]; rewrite Hr in Hin |- *; simpl in *;
    try by apply not_elem_of_nil in Hin.
  by apply list_elem_of_singleton in Hin as ->.
Qed.

(** X12. With neither SDK importable (line 214) the run ends in
    [fail_json] and no call is made; when the task itself was accepted the
    message is the one of line 215. *)
Theorem missing_sdk_reported :
  HAS_BOTO = false →
  HAS_BOTO3 = false →
  ∃ msg, (run (main ec2_argument_spec HAS_BOTO HAS_BOTO3 boto3_conn args)) = (FailJson msg, [])
         ∧ ∀ module,
           (AnsibleModule (E:=E) (R:=R)
              (dict_update ec2_argument_spec module_argument_spec) args [])
           = (inr module, []) → msg = "json and boto/boto3 is required.".
Proof.
  intros HB HB3. destruct checked_cases as [[msg Hm]|[module Hm]].
  - destruct (main_run_refused _ _ Hm) as [msg' ->]. exists msg'. split; [done|].
    intros module Hm'. rewrite Hm in Hm'. discriminate Hm'.
  - rewrite (main_run_accepted _ Hm), HB, HB3. simpl. eauto.
Qed.

(** X13. When the connection helpers raise [NoAuthHandlerFound] on an
    accepted task, line 221 turns it into [fail_json] with the text of the
    exception appended to a fixed prefix, and no call is made. *)
Theorem no_auth_handler_reported module e :

    (AnsibleModule (E:=E) (R:=R)
       (dict_update ec2_argument_spec module_argument_spec) args [])
    = (inr module, []) →
  HAS_BOTO || HAS_BOTO3 = true →
  boto3_conn module = NoAuthHandlerFound e →

    (run (main ec2_argument_spec HAS_BOTO HAS_BOTO3 boto3_conn args))
    = (FailJson ("Can't authorize connection - " ++ e), []).
Proof. intros Hm Hsdk Hc. by rewrite (main_run_accepted _ Hm), Hsdk, Hc. Qed.

(** X14. However [main] comes to call [fail_json] (a refused task, a
    missing SDK, a failed connection, a handler that refuses the request),
    no call has been made on the client by then. *)
Theorem main_failure_has_no_call msg :

    (run (main ec2_argument_spec HAS_BOTO HAS_BOTO3 boto3_conn args))
    .1 = FailJson msg → (run (main ec2_argument_spec HAS_BOTO HAS_BOTO3 boto3_conn args)).2 = [].
Proof.
  destruct checked_cases as [[msg' Hm]|[module Hm]].
  { by destruct (main_run_refused _ _ Hm) as [msg'' ->]. }
  rewrite (main_run_accepted _ Hm).
  destruct (negb (HAS_BOTO || HAS_BOTO3)); [done|].
  destruct (boto3_conn module) as [client|e|msg'|e]; try done.
  destruct (dispatch_outcomes client module)
    as [[-> _]|[[msg'' ->]|(op & p & -> & _)]]; [done|done|].
  simpl. by destruct (client op p).
Qed.

(** X15. [main] hands to [exit_json] exactly what the client returned for
    the one call: the run ends in [exit_json r] if and only if the call
    that was made returned [r]. *)
Theorem main_passes_result_through r :
  (run (main ec2_argument_spec HAS_BOTO HAS_BOTO3 boto3_conn args)).1 = ExitJson r
  ↔ ∃ module client op p,

        (AnsibleModule (E:=E) (R:=R)
           (dict_update ec2_argument_spec module_argument_spec) args [])
        = (inr module, [])
      ∧ boto3_conn module = Connected client
      ∧ (run (main ec2_argument_spec HAS_BOTO HAS_BOTO3 boto3_conn args)).2 = [(op, p)]
      ∧ client op p = inr r.
Proof.
  destruct checked_cases as [[msg Hm]|[module Hm]].
  { destruct (main_run_refused _ _ Hm) as [msg' ->]. simpl.
    split; [done | by intros (? & ? & ? & ? & _ & _ & ? & _)]. }
  rewrite (main_run_accepted _ Hm).
  destruct (negb (HAS_BOTO || HAS_BOTO3)); simpl;
    [split; [done | by intros (? & ? & ? & ? & _ & _ & ? & _)]|].
  destruct (boto3_conn module) as [client|e|msg|e] eqn:Hc; simpl;
    try (split; [done | by intros (? & ? & ? & ? & _ & _ & ? & _)]).
  destruct (dispatch_outcomes client module)
    as [[-> _]|[[msg' ->]|(op' & p' & -> & _)]]; simpl;
    try (split; [done | by intros (? & ? & ? & ? & _ & _ & ? & _)]).
  split.
  - intros Hr. exists module, client, op', p'. repeat split; try done.
    destruct (client op' p'); simpl in Hr; congruence.
  - intros (module' & client' & op & p & Hm' & Hc' & [= <- <-] & Hr).
    rewrite Hm in Hm'. injection Hm' as <-.
    rewrite Hc in Hc'. injection Hc' as <-. by rewrite Hr.
Qed.

(** X16. A call made by [main] is the operation of the query written in the
    task, and that query is one of the six choices. *)
Theorem main_calls_operation_of_given_query op p :
  (op, p) ∈ (run (main ec2_argument_spec HAS_BOTO HAS_BOTO3 boto3_conn args)).2 →
  ∃ q, q ∈ query_choices
       ∧ args !! "query" = Some (Some q)
       ∧ operation_of q = Some op.
Proof.
  destruct checked_cases as [[msg Hm]|[module Hm]].
  { destruct (main_run_refused _ _ Hm) as [msg' ->]. simpl.
    intros Hin. by apply not_elem_of_nil in Hin. }
  rewrite (main_run_accepted _ Hm).
  destruct (negb (HAS_BOTO || HAS_BOTO3)); simpl;
    [intros Hin; by apply not_elem_of_nil in Hin|].
  destruct (boto3_conn module) as [client|e|msg|e]; simpl;
    try (intros Hin; by apply not_elem_of_nil in Hin).
  intros Hin.
  apply AnsibleModule_query in Hm as (q & Hq & Hargs & Hget); [|apply argument_spec_query].
  exists q. repeat split; try done.
  by apply (call_is_operation_of_query client module q op p).
Qed.

End MainRuns.

(** * The common options of the example *)

Lemma example_ec2_declares k :
  declares (map_to_list Example.ec2_argument_spec) k →
  k ∈ ["ec2_url"; "aws_secret_key"; "ec2_secret_key"; "secret_key";
       "aws_access_key"; "ec2_access_key"; "access_key"; "validate_certs";
       "security_token"; "access_token"; "profile";
       "region"; "aws_region"; "ec2_region"].
Proof.
  intros ([k' v] & Hkv & Hk). simpl in Hk.
  apply elem_of_map_to_list in Hkv. unfold Example.ec2_argument_spec in Hkv.
  repeat (rewrite lookup_insert in Hkv; case_decide;
          [ subst k'; injection Hkv as <-; simpl in Hk;
            rewrite list_elem_of_In in Hk; simpl in Hk;
            apply list_elem_of_In; simpl; intuition auto 20
          | ]).
  by rewrite lookup_empty in Hkv.
Qed.

Lemma example_ec2_without k :
  k ∈ ["instance_status_filter"; "registration-status"] →
  ¬ declares (map_to_list Example.ec2_argument_spec) k.
Proof.
  intros Hk Hd%example_ec2_declares.
  apply list_elem_of_In in Hk. apply list_elem_of_In in Hd. simpl in Hk, Hd.
  destruct Hk as [<-|[<-|[]]]; intuition discriminate.
Qed.

Lemma on_premises_task_call :
  (ListOnPremisesInstances, {[ "registrationStatus" := None ]})
  ∈ (Example.main_with Example.echo Example.on_premises_task).2.
Proof. apply list_elem_of_In. vm_compute. left. reflexivity. Qed.

(** * The further properties at work on concrete requests *)

Lemma list_deployment_groups_call_witness :
  ∃ p, run (dispatch Example.echo Example.groups_of_application)
         = (ExitJson p, [(ListDeploymentGroups, p)])
       ∧ p !! "applicationName" = Some (Some "TestApplication")
       ∧ p !! "nextToken" = None
       ∧ ∀ k, is_Some (p !! k) → k ∈ ["applicationName"; "nextToken"].
Proof.
  exact (list_deployment_groups_call Example.echo Example.groups_of_application
           eq_refl eq_refl).
Defined.

Lemma list_deployment_instances_call_witness :
  ∃ p, run (dispatch Example.echo Example.instances_of_deployment)
         = (ExitJson p, [(ListDeploymentInstances, p)])
       ∧ p !! "deploymentId" = Some (Some "d-74Y1HLWZC")
       ∧ p !! "instanceStatusFilter" = None
       ∧ p !! "nextToken" = None
       ∧ ∀ k, is_Some (p !! k) → k ∈ ["deploymentId"; "instanceStatusFilter"; "nextToken"].
Proof.
  exact (list_deployment_instances_call Example.echo Example.instances_of_deployment
           eq_refl eq_refl).
Defined.

Lemma list_on_premises_instances_call_witness :
  ∃ p, run (dispatch Example.echo Example.on_premises_registered)
         = (ExitJson p, [(ListOnPremisesInstances, p)])
       ∧ p !! "registrationStatus" = Some None
       ∧ p !! "nextToken" = None
       ∧ ∀ k, is_Some (p !! k) → k ∈ ["registrationStatus"; "nextToken"].
Proof.
  exact (list_on_premises_instances_call Example.echo Example.on_premises_registered eq_refl).
Defined.

Lemma unconditional_listing_call_witness :
  ∃ op p, operation_of "list_applications" = Some op
       ∧ run (dispatch Example.echo Example.applications_next) = (ExitJson p, [(op, p)])
       ∧ p !! "nextToken" = Some (Some "TOKEN123")
       ∧ ∀ k, is_Some (p !! k) → k = "nextToken".
Proof.
  apply (unconditional_listing_call Example.echo Example.applications_next "list_applications").
  - apply list_elem_of_In. simpl. tauto.
  - reflexivity.
Defined.

Lemma operation_matches_query_witness :
  operation_of "list_applications" = Some ListApplications.
Proof.
  apply (operation_matches_query Example.echo Example.applications
           "list_applications" ListApplications ∅).
  - reflexivity.
  - apply list_elem_of_In. left. reflexivity.
Defined.

Lemma keyword_values_nonempty_witness : truthy (Some "TOKEN123") = true.
Proof.
  apply (keyword_values_nonempty Example.echo Example.applications_next
           ListApplications {[ "nextToken" := Some "TOKEN123" ]} "nextToken").
  - apply list_elem_of_In. left. reflexivity.
  - reflexivity.
  - discriminate.
Defined.

Lemma unread_options_ignored_witness :
  run (dispatch Example.echo Example.groups_of_application)
  = run (dispatch Example.echo Example.groups_of_application_in_region).
Proof.
  apply unread_options_ignored.
  intros k Hk. apply list_elem_of_In in Hk. simpl in Hk.
  destruct Hk as [<-|[<-|[<-|[<-|[<-|[<-|[<-|[<-|[]]]]]]]]]; reflexivity.
Defined.

Lemma main_call_requires_connection_witness :
  ∃ module client,
    AnsibleModule (E:=string) (R:=gmap string (option string))
      (dict_update Example.ec2_argument_spec module_argument_spec)
      Example.applications_task [] = (inr module, [])
    ∧ Connected Example.echo = Connected client
    ∧ Example.main_with Example.echo Example.applications_task
      = run (dispatch client module)
    ∧ (Example.main_with Example.echo Example.applications_task).2
      = [(ListApplications, ∅)].
Proof.
  refine (proj2 (main_call_requires_connection Example.ec2_argument_spec true true
                   (λ _, Connected Example.echo) Example.applications_task
                   ListApplications ∅ _)).
  apply list_elem_of_In. vm_compute. left. reflexivity.
Defined.

Lemma missing_sdk_reported_witness :
  ∃ msg, run (main Example.ec2_argument_spec false false
                (λ _, Connected Example.echo) Example.applications_task)
         = (FailJson msg, [])
         ∧ ∀ module,
             AnsibleModule (E:=string) (R:=gmap string (option string))
               (dict_update Example.ec2_argument_spec module_argument_spec)
               Example.applications_task [] = (inr module, []) →
             msg = "json and boto/boto3 is required.".
Proof.
  exact (missing_sdk_reported Example.ec2_argument_spec false false
           (λ _, Connected Example.echo) Example.applications_task eq_refl eq_refl).
Defined.

Lemma main_failure_has_no_call_witness :
  (Example.main_with Example.echo Example.groups_task_without_application).2 = [].
Proof.
  apply (main_failure_has_no_call Example.ec2_argument_spec true true
           (λ _, Connected Example.echo) Example.groups_task_without_application
           "application_name is required").
  vm_compute. reflexivity.
Defined.

Lemma main_calls_operation_of_given_query_witness :
  ∃ q, q ∈ query_choices
       ∧ Example.on_premises_task !! "query" = Some (Some q)
       ∧ operation_of q = Some ListOnPremisesInstances.
Proof.
  apply (main_calls_operation_of_given_query Example.ec2_argument_spec true true
           (λ _, Connected Example.echo) Example.on_premises_task
           ListOnPremisesInstances {[ "registrationStatus" := None ]}).
  apply on_premises_task_call.
Defined.

Lemma no_auth_handler_reported_witness :
  run (main Example.ec2_argument_spec true true Example.no_credentials
         Example.applications_task)
  = (FailJson "Can't authorize connection - No handler was ready to authenticate.", []).
Proof.
  destruct (checked_cases (E:=string) (R:=gmap string (option string))
              Example.ec2_argument_spec Example.applications_task)
    as [[msg Hm]|[module Hm]].
  - vm_compute in Hm. discriminate Hm.
  - exact (no_auth_handler_reported Example.ec2_argument_spec true true
             Example.no_credentials Example.applications_task module
             "No handler was ready to authenticate." Hm eq_refl eq_refl).
Defined.

Lemma main_registration_status_is_None_witness :
  ¬ declares (map_to_list Example.ec2_argument_spec) "registration-status"
  ∧ (None : option string) = None.
Proof.
  assert (Hno : ¬ declares (map_to_list Example.ec2_argument_spec) "registration-status").
  { apply example_ec2_without. apply list_elem_of_In. simpl. tauto. }
  split; [exact Hno|].
  apply (main_registration_status_is_None Example.ec2_argument_spec true true
           (λ _, Connected Example.echo) Example.on_premises_task
           ListOnPremisesInstances {[ "registrationStatus" := None ]} None Hno).
  - apply on_premises_task_call.
  - reflexivity.
Defined.

